(** * PR throttler: a shallow embedding of the enforcement decision

    The development follows the TypeScript sources file by file:
    - [Config]      src/config.ts      ([parseInputs], [allowedOpenFromPolicy]);
    - [Graphql]     src/graphql.ts     ([fetchAuthorPRCounts]);
    - [Exclusions]  src/exclusions.ts  ([parseTeamSlug], [isUserExcludedByTeams],
                                        [isUserExcludedByList]);
    - [Main]        src/main.ts        ([run]);
    - [Template]    src/main.ts        ([renderTemplate]).

    Conventions.
    - A JavaScript [number] is an integer of [Z]: thresholds and counts are
      integers in the data model, and no arithmetic here can leave them.
    - A JavaScript string is a [string] of ASCII characters; [trim] and
      [toLowerCase] are the ASCII restrictions of the JavaScript methods.
    - What the action does to the outside world (log lines, outputs, REST and
      GraphQL requests) is recorded, in program order, as a list of [Event]s.
      What the outside world answers is read from a [Host] record, so that a
      run is a function of the host.
    - An array that the code copies and sorts in place is modelled twice: as a
      value (a [list]) and, for the frame property, as a cell of a store of
      mutable arrays. *)

From Stdlib Require Import ZArith Ascii DecimalString.
From stdpp Require Import base list strings gmap sorting.

Set Warnings "-register-all".
Local Open Scope string_scope.
Local Open Scope list_scope.

(** ** JavaScript strings *)

Module JsString.

(** White space removed by [String.prototype.trim] (ASCII part): tab, line
    feed, vertical tab, form feed, carriage return, space. *)
Definition is_white_space (c : ascii) : bool :=
  let n := nat_of_ascii c in
  ((9 <=? n) && (n <=? 13))%nat || (n =? 32)%nat.

Fixpoint trimStart (s : string) : string :=
  match s with
  | EmptyString => EmptyString
  | String c s' => if is_white_space c then trimStart s' else s
  end.

Fixpoint trimEnd (s : string) : string :=
  match s with
  | EmptyString => EmptyString
  | String c s' =>
      match trimEnd s' with
      | EmptyString => if is_white_space c then EmptyString else String c EmptyString
      | t => String c t
      end
  end.

Definition trim (s : string) : string := trimEnd (trimStart s).

Definition lower_char (c : ascii) : ascii :=
  let n := nat_of_ascii c in
  if ((65 <=? n) && (n <=? 90))%nat then ascii_of_nat (n + 32) else c.

Fixpoint toLowerCase (s : string) : string :=
  match s with
  | EmptyString => EmptyString
  | String c s' => String (lower_char c) (toLowerCase s')
  end.

(** [s.split(sep)] for a one-character separator. *)
Fixpoint split (sep : ascii) (s : string) : list string :=
  match s with
  | EmptyString => [EmptyString]
  | String c s' =>
      if Ascii.eqb c sep then EmptyString :: split sep s'
      else match split sep s' with
           | h :: t => String c h :: t
           | [] => [String c EmptyString]
           end
  end.

(** [s.endsWith(suffix)]. *)
Definition endsWith (s suffix : string) : bool :=
  let n := String.length s in
  let k := String.length suffix in
  (k <=? n)%nat && String.eqb (String.substring (n - k) k s) suffix.

(** [String(n)] for an integer [n]. *)
Definition of_number (n : Z) : string := NilZero.string_of_int (Z.to_int n).

(** Truthiness of a string value: the empty string is falsy. *)
Definition truthy (s : string) : bool := negb (String.eqb s EmptyString).

(** [a || b] where [a] and [b] are strings or [undefined]. *)
Definition or_else (a b : option string) : option string :=
  match a with
  | Some s => if truthy s then Some s else b
  | None => b
  end.

(** [a || undefined]. *)
Definition or_undefined (a : option string) : option string := or_else a None.

End JsString.

(** ** JSON values, as [JSON.parse] returns them *)

Inductive json : Type :=
| JNull
| JBool (b : bool)
| JNum (n : Z)
| JStr (s : string)
| JArr (items : list json)
| JObj (fields : list (string * json)).

Module Json.

(** [o[key]] for an own property of a parsed object; a key that occurs twice
    in the text keeps its last value. *)
Fixpoint get_field (key : string) (fields : list (string * json)) : option json :=
  match fields with
  | [] => None
  | (k, v) :: rest =>
      match get_field key rest with
      | Some v' => Some v'
      | None => if String.eqb k key then Some v else None
      end
  end.

(** [typeof v === "number"], where [None] is [undefined]. *)
Definition is_number (v : option json) : option Z :=
  match v with
  | Some (JNum n) => Some n
  | _ => None
  end.

Definition join (sep : string) (parts : list string) : string :=
  match parts with
  | [] => EmptyString
  | p :: ps => fold_left (fun acc q => acc +:+ sep +:+ q) ps p
  end.

(** [String(v)]. An array is its elements joined by commas, with [null]
    rendered as the empty string; an object is ["[object Object]"]. *)
Fixpoint to_String (v : json) : string :=
  match v with
  | JNull => "null"
  | JBool true => "true"
  | JBool false => "false"
  | JNum n => JsString.of_number n
  | JStr s => s
  | JArr items =>
      join "," (map (fun x => match x with JNull => EmptyString | _ => to_String x end) items)
  | JObj _ => "[object Object]"
  end.

End Json.

(** ** Exceptions *)

(** A computation that either throws an [Error] with a message or returns. *)
Inductive Result (A : Type) : Type :=
| Ok (a : A)
| Err (message : string).
Arguments Ok {A} a.
Arguments Err {A} message.

Definition result_bind {A B : Type} (r : Result A) (k : A -> Result B) : Result B :=
  match r with
  | Ok a => k a
  | Err m => Err m
  end.

(** ** src/config.ts *)

Module Config.

Record PolicyRule : Type := { minMerged : Z; allowedOpen : Z }.

Record Inputs : Type := {
  policy : list PolicyRule;
  closeComment : string;
  excludeUsers : list string;
  excludeTeams : list string;
  countDrafts : bool;
  skipOnFailure : bool;
  revertToDraftOnReady : bool;
  backToDraftComment : string;
  labelWhenClosed : option string;
  token : option string
}.

(** What [parseInputs] reads: the action inputs as [core.getInput] finds them
    (the empty string when an input is not supplied), two environment
    variables, and the engine's [JSON.parse], which throws a [SyntaxError]
    with some message or returns a value. *)
Record InputSource : Type := {
  raw_input : string -> string;
  env_GITHUB_TOKEN : option string;
  env_TOKEN : option string;
  JSON_parse : string -> Result json
}.

(** [core.getInput(name, { required })] of @actions/core: a required input
    that is empty throws; the value is trimmed. *)
Definition getInput (src : InputSource) (name : string) (required : bool) : Result string :=
  let val := raw_input src name in
  if required && negb (JsString.truthy val)
  then Err ("Input required and not supplied: " +:+ name)
  else Ok (JsString.trim val).

(** [core.getInput(name)], which cannot throw. *)
Definition getInputOpt (src : InputSource) (name : string) : string :=
  JsString.trim (raw_input src name).

(** The body of [policy.forEach((r, idx) => ...)], lines 29-36: reading a
    property of [null] throws a [TypeError]; any other value without two
    numeric fields is an invalid rule. *)
Definition check_rule (idx : nat) (r : json) : Result PolicyRule :=
  match r with
  | JNull => Err "Cannot read properties of null (reading 'allowedOpen')"
  | JObj fields =>
      match Json.is_number (Json.get_field "allowedOpen" fields),
            Json.is_number (Json.get_field "minMerged" fields) with
      | Some a, Some m => Ok {| minMerged := m; allowedOpen := a |}
      | _, _ => Err ("Invalid policy rule at index " +:+ NilZero.string_of_uint (Nat.to_uint idx))
      end
  | _ => Err ("Invalid policy rule at index " +:+ NilZero.string_of_uint (Nat.to_uint idx))
  end.

Fixpoint check_rules (idx : nat) (items : list json) : Result (list PolicyRule) :=
  match items with
  | [] => Ok []
  | r :: rest =>
      result_bind (check_rule idx r) (fun rule =>
      result_bind (check_rules (S idx) rest) (fun rules =>
      Ok (rule :: rules)))
  end.

(** Lines 22-39: the [try] block and its [catch], which rethrows. *)
Definition parsePolicy (src : InputSource) (policyStr : string) : Result (list PolicyRule) :=
  let attempt :=
    result_bind (JSON_parse src policyStr) (fun parsed =>
    match parsed with
    | JArr items => check_rules 0 items
    | _ => Err "policy must be a JSON array"
    end) in
  match attempt with
  | Ok p => Ok p
  | Err message => Err ("Failed to parse 'policy' input: " +:+ message)
  end.

Definition nonempty (s : string) : bool := JsString.truthy s.

(** Lines 78-93. *)
Definition parseListOrJsonArray (src : InputSource) (raw : string) : list string :=
  let trimmed := JsString.trim raw in
  if negb (JsString.truthy trimmed) then []
  else
    let csv := List.filter nonempty (map JsString.trim (JsString.split "," trimmed)) in
    match JSON_parse src trimmed with
    | Ok (JArr items) =>
        List.filter nonempty (map (fun v => JsString.trim (Json.to_String v)) items)
    | Ok _ => csv
    | Err _ => csv
    end.

(** [(core.getInput(name) || "true").toLowerCase() === "true"]. *)
Definition getFlag (src : InputSource) (name : string) : bool :=
  let str := default "true" (JsString.or_undefined (Some (getInputOpt src name))) in
  String.eqb (JsString.toLowerCase str) "true".

(** Lines 21-76. *)
Definition parseInputs (src : InputSource) : Result Inputs :=
  result_bind (getInput src "policy" true) (fun policyInput =>
  let policyStr := JsString.trim policyInput in
  result_bind (parsePolicy src policyStr) (fun policy =>
  result_bind (getInput src "closeComment" true) (fun closeComment =>
  Ok {| policy := policy;
        closeComment := closeComment;
        excludeUsers := parseListOrJsonArray src (getInputOpt src "excludeUsers");
        excludeTeams := parseListOrJsonArray src (getInputOpt src "excludeTeams");
        countDrafts := getFlag src "countDrafts";
        skipOnFailure := getFlag src "skipOnFailure";
        revertToDraftOnReady := getFlag src "revertToDraftOnReady";
        backToDraftComment := getInputOpt src "backToDraftComment";
        labelWhenClosed := JsString.or_undefined (Some (getInputOpt src "labelWhenClosed"));
        token :=
          JsString.or_undefined
            (JsString.or_else (Some (getInputOpt src "token"))
               (JsString.or_else (env_GITHUB_TOKEN src) (env_TOKEN src))) |}))).

(** [Array.prototype.sort(compareFn)]. The language fixes the result for a
    consistent comparator: the stable ascending arrangement. It is computed
    here by insertion from the right, an element going before the first one
    it does not exceed. *)
Section ArraySort.
Context {A : Type} (compareFn : A -> A -> Z).

Fixpoint sort_insert (x : A) (l : list A) : list A :=
  match l with
  | [] => [x]
  | y :: l' => if (compareFn x y <=? 0)%Z then x :: y :: l' else y :: sort_insert x l'
  end.

Definition Array_sort (l : list A) : list A := foldr sort_insert [] l.
End ArraySort.

(** The comparator of line 100. *)
Definition byMinMerged (a b : PolicyRule) : Z := (minMerged a - minMerged b)%Z.

(** A table in ascending order of [minMerged]. *)
Definition ascending : list PolicyRule -> Prop :=
  StronglySorted (fun a b => (minMerged a <= minMerged b)%Z).

(** The loop of lines 102-108, with [selected] as its state. *)
Fixpoint select_rule (mergedCount : Z) (selected : PolicyRule) (sorted : list PolicyRule)
  : PolicyRule :=
  match sorted with
  | [] => selected
  | rule :: rest =>
      if (mergedCount >=? minMerged rule)%Z
      then select_rule mergedCount rule rest
      else selected
  end.

(** Lines 101-109, on the sorted copy. The empty case stands for
    [sorted[0]] being [undefined]; it is not reached from
    [allowedOpenFromPolicy], the copy being as long as the policy. *)
Definition select_allowedOpen (sorted : list PolicyRule) (mergedCount : Z) : Z :=
  match sorted with
  | [] => 1%Z
  | first :: _ => allowedOpen (select_rule mergedCount first sorted)
  end.

(** Lines 95-110, on array values. *)
Definition allowedOpenFromPolicy (policy : list PolicyRule) (mergedCount : Z) : Z :=
  if (length policy =? 0)%nat then 1%Z
  else select_allowedOpen (Array_sort byMinMerged policy) mergedCount.

(** Lines 95-110, on array references. A store maps a reference to the
    contents of its array; [[...policy]] allocates a new array with the same
    contents and [sort] rearranges the array it is called on. *)
Abbreviation Store := (gmap positive (list PolicyRule)).

Definition array_contents (a : positive) (σ : Store) : list PolicyRule :=
  default [] (σ !! a).

Definition array_spread (a : positive) (σ : Store) : positive * Store :=
  let fresh_ref := fresh (dom σ) in
  (fresh_ref, <[fresh_ref := array_contents a σ]> σ).

Definition array_sort_in_place (compareFn : PolicyRule -> PolicyRule -> Z)
    (a : positive) (σ : Store) : positive * Store :=
  (a, <[a := Array_sort compareFn (array_contents a σ)]> σ).

Definition allowedOpenFromPolicy_ref (policy : positive) (mergedCount : Z) (σ : Store)
  : Z * Store :=
  if (length (array_contents policy σ) =? 0)%nat then (1%Z, σ)
  else
    let '(copy, σ1) := array_spread policy σ in
    let '(sorted, σ2) := array_sort_in_place byMinMerged copy σ1 in
    (select_allowedOpen (array_contents sorted σ2) mergedCount, σ2).

End Config.

(** ** The outside world: events and answers *)

Module Effects.

Inductive Level : Type := Info | Warning.

(** One constructor per message of the sources, with its variable parts. *)
Inductive LogLine : Type :=
| EventNotSupported (eventName : string)
| NoPullRequestPayload
| NoAuthor
| BotAuthor (author : string) (authorType : option string)
| NoToken
| AuthorInExcludeUsers (author : string)
| AuthorExcludedByTeams (author : string)
| DraftNotCounted (pull_number : Z)
| NotOpen (pull_number : Z) (prState : string)
| CountsFailedSkipping (msg : string)
| Summary (author : string) (openCount effectiveOpen mergedCount allowedOpen : Z)
    (isDraft countDrafts : bool)
| BackCommentFailedSkipping (msg : string)
| BackCommentFailedContinuing (msg : string)
| NoBackToDraftComment
| RevertFailedSkipping (msg : string)
| RevertedToDraft (pull_number : Z)
| CommentFailedSkipping (msg : string)
| CommentFailedContinuing (msg : string)
| CloseFailedSkipping (msg : string)
| LabelFailed (label msg : string)
| ClosedByPolicy (pull_number : Z)
| WithinLimit (pull_number : Z)
| InvalidTeamSlug (slug : string)
| ExcludedByTeam (username org team : string)
| MembershipFailedSkipping (org team username msg : string)
| MembershipFailedContinuing (org team username msg : string).

(** The variables handed to [renderTemplate]. The substitution itself is not
    part of the model: a comment body is kept as its template and the values
    it is rendered with. *)
Record TemplateVars : Type := {
  var_author : string;
  var_openCount : Z;
  var_allowedOpen : Z;
  var_mergedCount : Z
}.

Record CommentBody : Type := renderTemplate { template : string; vars : TemplateVars }.

(** The change sent by [pulls.update]: [{ draft: true }] or
    [{ state: "closed" }]. *)
Inductive PullPatch : Type := DraftTrue | StateClosed.

(** The REST calls whose answer is used only as success or failure. *)
Inductive RestCall : Type :=
| CreateComment (owner repo : string) (issue_number : Z) (body : CommentBody)
| PullsUpdate (owner repo : string) (pull_number : Z) (patch : PullPatch)
| AddLabels (owner repo : string) (issue_number : Z) (labels : list string).

Inductive Event : Type :=
| Log (level : Level) (line : LogLine)
| SetOutput (name value : string)
| SetFailed (message : string)
| MembershipQuery (org team_slug username : string)
| CountsQuery (openQuery mergedQuery : string)
| Rest (call : RestCall).

(** The answer of [teams.getMembershipForUserInOrg]: a response with its
    HTTP status and membership state, or a rejected promise. *)
Inductive MembershipReply : Type :=
| MembershipResponse (status : Z) (state : string)
| MembershipError (message : string).

(** What the remote side answers to each request of one run. *)
Record Remote : Type := {
  getMembershipForUserInOrg : string -> string -> string -> MembershipReply;
  graphql : string -> string -> Result (Z * Z);
  rest : RestCall -> Result unit
}.

(** How a block of statements ends: it falls through with a value, executes
    [return], or throws. *)
Inductive Flow (A : Type) : Type :=
| Next (a : A)
| Returned
| Thrown (message : string).
Arguments Next {A} a.
Arguments Returned {A}.
Arguments Thrown {A} message.

(** A block: the events it emits, in order, and how it ends. *)
Definition Act (A : Type) : Type := list Event * Flow A.

Definition act_bind {A B : Type} (k : A -> Act B) (m : Act A) : Act B :=
  match m with
  | (tr, Next a) => (tr ++ fst (k a), snd (k a))
  | (tr, Returned) => (tr, Returned)
  | (tr, Thrown e) => (tr, Thrown e)
  end.

#[global] Instance Act_ret : MRet Act := fun A a => ([], Next a).
#[global] Instance Act_bind : MBind Act := fun A B k m => act_bind k m.

Definition emit (e : Event) : Act unit := ([e], Next tt).
Definition info (line : LogLine) : Act unit := emit (Log Info line).
Definition warning (line : LogLine) : Act unit := emit (Log Warning line).
Definition setOutput (name value : string) : Act unit := emit (SetOutput name value).
Definition return_ {A : Type} : Act A := ([], Returned).
Definition throw {A : Type} (message : string) : Act A := ([], Thrown message).

(** [if (c) { body }]. *)
Definition when (c : bool) (body : Act unit) : Act unit :=
  if c then body else mret tt.

(** [try { body } catch (e) { handler(e.message) }]. *)
Definition try_catch {A : Type} (body : Act A) (handler : string -> Act A) : Act A :=
  match body with
  | (tr, Thrown e) => (tr ++ fst (handler e), snd (handler e))
  | _ => body
  end.

(** A call that can throw before any request is made. *)
Definition lift {A : Type} (r : Result A) : Act A :=
  match r with
  | Ok a => mret a
  | Err e => throw e
  end.

(** The outcome of an awaited helper that has its own [return]. *)
Definition ran {A : Type} (r : list Event * A) : Act A := (fst r, Next (snd r)).

(** [await octokit.rest...(call)]. *)
Definition await_rest (remote : Remote) (call : RestCall) : Act unit :=
  ([Rest call], match rest remote call with Ok _ => Next tt | Err e => Thrown e end).

End Effects.

(** ** src/graphql.ts *)

Module Graphql.
Import Effects.

Record PRCounts : Type := { openCount : Z; mergedCount : Z }.

Definition fetchAuthorPRCounts (remote : Remote)
    (owner repo author : string) (countDrafts : bool) : Act PRCounts :=
  let base := "repo:" +:+ owner +:+ "/" +:+ repo +:+ " is:pr author:" +:+ author in
  let openQuery :=
    if countDrafts then base +:+ " is:open" else base +:+ " is:open -is:draft" in
  let mergedQuery := base +:+ " is:merged" in
  ([CountsQuery openQuery mergedQuery],
   match graphql remote openQuery mergedQuery with
   | Ok (open, merged) => Next {| openCount := open; mergedCount := merged |}
   | Err e => Thrown e
   end).

End Graphql.

(** ** src/exclusions.ts *)

Module Exclusions.
Import Effects.

Record TeamSlug : Type := { org : string; team : string }.

Definition parseTeamSlug (slug : string) : option TeamSlug :=
  match List.filter JsString.truthy (map JsString.trim (JsString.split "/" slug)) with
  | [o; t] => Some {| org := o; team := t |}
  | _ => None
  end.

(** The loop of lines 21-53; the function returns from inside it. *)
Fixpoint isUserExcludedByTeams (remote : Remote) (teamSlugs : list string)
    (username : string) (skipOnFailure : bool) : list Event * bool :=
  match teamSlugs with
  | [] => ([], false)
  | slug :: rest =>
      let continue := isUserExcludedByTeams remote rest username skipOnFailure in
      match parseTeamSlug slug with
      | None => (Log Warning (InvalidTeamSlug slug) :: fst continue, snd continue)
      | Some parsed =>
          let query := MembershipQuery (org parsed) (team parsed) username in
          match getMembershipForUserInOrg remote (org parsed) (team parsed) username with
          | MembershipResponse status state =>
              if (status =? 200)%Z && String.eqb state "active"
              then ([query; Log Info (ExcludedByTeam username (org parsed) (team parsed))],
                    true)
              else (query :: fst continue, snd continue)
          | MembershipError msg =>
              if skipOnFailure
              then ([query;
                     Log Warning
                       (MembershipFailedSkipping (org parsed) (team parsed) username msg)],
                    true)
              else (query
                    :: Log Warning
                         (MembershipFailedContinuing (org parsed) (team parsed) username msg)
                    :: fst continue,
                    snd continue)
          end
      end
  end.

Definition isUserExcludedByList (excludeUsers : list string) (username : string) : bool :=
  existsb (String.eqb (JsString.toLowerCase username)) (map JsString.toLowerCase excludeUsers).

End Exclusions.

(** ** src/main.ts *)

Module Main.
Import Effects.

(** The parts of [github.context] that [run] reads. [draft] is the
    truthiness of [pr.draft]; an absent field is [None]. *)
Record User : Type := { login : option string; user_type : option string }.

Record PullRequest : Type := {
  number : Z;
  user : option User;
  draft : bool;
  state : option string
}.

Record Context : Type := {
  eventName : string;
  payload_pull_request : option PullRequest;
  payload_action : option string;
  repo_owner : string;
  repo_repo : string
}.

Record Host : Type := {
  source : Config.InputSource;
  context : Context;
  remote : Remote
}.

(** [pr.user?.login] and [pr.user?.type]. *)
Definition user_login (pr : PullRequest) : option string :=
  match user pr with
  | Some u => login u
  | None => None
  end.

Definition user_type_of (pr : PullRequest) : option string :=
  match user pr with
  | Some u => user_type u
  | None => None
  end.

(** Line 45. *)
Definition isBotUser (authorType : option string) (author : string) : bool :=
  match authorType with
  | Some t => JsString.truthy t && String.eqb (JsString.toLowerCase t) "bot"
  | None => false
  end
  || JsString.endsWith (JsString.toLowerCase author) "[bot]".

(** Line 116. *)
Definition currentIncluded (countDrafts isDraft : bool) : bool :=
  if countDrafts then true else negb isDraft.

(** Line 117. *)
Definition effectiveOpen (openCount : Z) (countDrafts isDraft : bool) : Z :=
  (openCount - (if currentIncluded countDrafts isDraft then 1 else 0))%Z.

(** [core.setOutput("decision", "skipped"); return;] *)
Definition skipped {A : Type} : Act A := setOutput "decision" "skipped";; return_.

(** Lines 135-185: the revert-to-draft branch. *)
Definition revertBranch (remote : Remote) (inputs : Config.Inputs)
    (owner repo : string) (pull_number : Z) (vars : TemplateVars) : Act unit :=
  let backComment := JsString.trim (Config.backToDraftComment inputs) in
  (if (0 <? String.length backComment)%nat
   then
     try_catch
       (await_rest remote
          (CreateComment owner repo pull_number (renderTemplate backComment vars)))
       (fun msg =>
          if Config.skipOnFailure inputs
          then warning (BackCommentFailedSkipping msg);; skipped
          else warning (BackCommentFailedContinuing msg))
   else info NoBackToDraftComment);;
  try_catch
    (await_rest remote (PullsUpdate owner repo pull_number DraftTrue))
    (fun msg =>
       if Config.skipOnFailure inputs
       then warning (RevertFailedSkipping msg);; skipped
       else throw ("Failed to revert PR to draft: " +:+ msg));;
  info (RevertedToDraft pull_number);;
  setOutput "decision" "reverted_to_draft";;
  return_.

(** Lines 188-248: the close branch. *)
Definition closeBranch (remote : Remote) (inputs : Config.Inputs)
    (owner repo : string) (pull_number : Z) (vars : TemplateVars) : Act unit :=
  let commentBody := renderTemplate (Config.closeComment inputs) vars in
  try_catch
    (await_rest remote (CreateComment owner repo pull_number commentBody))
    (fun msg =>
       if Config.skipOnFailure inputs
       then warning (CommentFailedSkipping msg);; skipped
       else warning (CommentFailedContinuing msg));;
  try_catch
    (await_rest remote (PullsUpdate owner repo pull_number StateClosed))
    (fun msg =>
       if Config.skipOnFailure inputs
       then warning (CloseFailedSkipping msg);; skipped
       else throw ("Failed to close PR: " +:+ msg));;
  match Config.labelWhenClosed inputs with
  | Some label =>
      when (JsString.truthy label && (0 <? String.length (JsString.trim label))%nat)
        (try_catch
           (await_rest remote (AddLabels owner repo pull_number [label]))
           (fun msg => warning (LabelFailed label msg)))
  | None => mret tt
  end;;
  info (ClosedByPolicy pull_number);;
  setOutput "decision" "closed";;
  return_.

(** Lines 131-249: the body of [if (effectiveOpen >= allowedOpen)]. *)
Definition enforce (remote : Remote) (inputs : Config.Inputs) (actionType : option string)
    (owner repo : string) (pull_number : Z) (vars : TemplateVars) : Act unit :=
  if negb (Config.countDrafts inputs) && Config.revertToDraftOnReady inputs
     && bool_decide (actionType = Some "ready_for_review")
  then revertBranch remote inputs owner repo pull_number vars
  else closeBranch remote inputs owner repo pull_number vars.

(** Lines 112-252: from the fetched counts to the decision. *)
Definition decideAction (h : Host) (inputs : Config.Inputs) (pr : PullRequest)
    (author : string) (counts : Graphql.PRCounts) : Act unit :=
  let openCount := Graphql.openCount counts in
  let mergedCount := Graphql.mergedCount counts in
  let isDraft := draft pr in
  let effective := effectiveOpen openCount (Config.countDrafts inputs) isDraft in
  let allowedOpen := Config.allowedOpenFromPolicy (Config.policy inputs) mergedCount in
  info (Summary author openCount effective mergedCount allowedOpen isDraft
          (Config.countDrafts inputs));;
  setOutput "openCount" (JsString.of_number effective);;
  setOutput "mergedCount" (JsString.of_number mergedCount);;
  setOutput "allowedOpen" (JsString.of_number allowedOpen);;
  when (effective >=? allowedOpen)%Z
    (enforce (remote h) inputs (payload_action (context h))
       (repo_owner (context h)) (repo_repo (context h)) (number pr)
       {| var_author := author; var_openCount := effective;
          var_allowedOpen := allowedOpen; var_mergedCount := mergedCount |});;
  info (WithinLimit (number pr));;
  setOutput "decision" "ok".

(** Lines 14-66: inputs, event, payload, author, bot, token and user-list
    gates. Falling through yields the inputs, the pull request and its
    author. *)
Definition preamble (h : Host) : Act (Config.Inputs * PullRequest * string) :=
  inputs ← lift (Config.parseInputs (source h));
  let ctx := context h in
  when (negb (String.eqb (eventName ctx) "pull_request")
        && negb (String.eqb (eventName ctx) "pull_request_target"))
    (info (EventNotSupported (eventName ctx));; skipped);;
  pr ← match payload_pull_request ctx with
       | None => info NoPullRequestPayload;; skipped
       | Some pr => mret pr
       end;
  author ← match JsString.or_undefined (user_login pr) with
           | None => warning NoAuthor;; skipped
           | Some author => mret author
           end;
  let authorType := user_type_of pr in
  when (isBotUser authorType author)
    (info (BotAuthor author authorType);; skipped);;
  token ← match JsString.or_undefined
                  (JsString.or_else (Config.token inputs)
                     (Config.env_GITHUB_TOKEN (source h))) with
          | None => warning NoToken;; skipped
          | Some token => mret token
          end;
  when (Exclusions.isUserExcludedByList (Config.excludeUsers inputs) author)
    (info (AuthorInExcludeUsers author);; skipped);;
  mret (inputs, pr, author).

(** Lines 68-76: exclusion by teams. *)
Definition teamsGate (h : Host) (inputs : Config.Inputs) (author : string) : Act unit :=
  when (0 <? length (Config.excludeTeams inputs))%nat
    (excluded ← ran (Exclusions.isUserExcludedByTeams (remote h)
                        (Config.excludeTeams inputs) author (Config.skipOnFailure inputs));
     when excluded (info (AuthorExcludedByTeams author);; skipped)).

(** Lines 78-83: a draft when drafts do not count. *)
Definition draftGate (inputs : Config.Inputs) (pr : PullRequest) : Act unit :=
  when (negb (Config.countDrafts inputs) && draft pr)
    (info (DraftNotCounted (number pr));; setOutput "decision" "ok";; return_).

(** Lines 85-110: the state gate and the count query. *)
Definition countsStage (h : Host) (inputs : Config.Inputs) (pr : PullRequest)
    (author : string) : Act Graphql.PRCounts :=
  let prState := default "open" (JsString.or_undefined (state pr)) in
  when (negb (String.eqb prState "open"))
    (info (NotOpen (number pr) prState);; skipped);;
  try_catch
    (Graphql.fetchAuthorPRCounts (remote h) (repo_owner (context h))
       (repo_repo (context h)) author (Config.countDrafts inputs))
    (fun msg =>
       if Config.skipOnFailure inputs
       then warning (CountsFailedSkipping msg);; skipped
       else throw msg).

(** Lines 14-110: every gate before the comparison. *)
Definition entry (h : Host)
  : Act (Config.Inputs * PullRequest * string * Graphql.PRCounts) :=
  '(inputs, pr, author) ← preamble h;
  teamsGate h inputs author;;
  draftGate inputs pr;;
  counts ← countsStage h inputs pr author;
  mret (inputs, pr, author, counts).

(** Lines 14-252: the body of the outer [try]. *)
Definition run_body (h : Host) : Act unit :=
  '(inputs, pr, author, counts) ← entry h;
  decideAction h inputs pr author counts.

(** Lines 253-255: the outer [catch] turns an exception into
    [core.setFailed]. What is left of a block is everything it did, in
    order. *)
Definition catch_all (r : Act unit) : list Event :=
  match snd r with
  | Thrown message => fst r ++ [SetFailed message]
  | _ => fst r
  end.

(** Lines 12-256. *)
Definition run (h : Host) : list Event := catch_all (run_body h).

(** *** Reading a trace *)

(** The values given to the output [name], in order. *)
Definition outputs (name : string) (tr : list Event) : list string :=
  omap (fun e => match e with
                 | SetOutput n v => if String.eqb n name then Some v else None
                 | _ => None
                 end) tr.

Definition is_comment (e : Event) : bool :=
  match e with Rest (CreateComment _ _ _ _) => true | _ => false end.

Definition is_close (e : Event) : bool :=
  match e with Rest (PullsUpdate _ _ _ StateClosed) => true | _ => false end.

Definition is_revert (e : Event) : bool :=
  match e with Rest (PullsUpdate _ _ _ DraftTrue) => true | _ => false end.

Definition is_counts_query (e : Event) : bool :=
  match e with CountsQuery _ _ => true | _ => false end.

Definition is_failure (e : Event) : bool :=
  match e with SetFailed _ => true | _ => false end.

(** A comment, close or revert request was made. *)
Definition acted (tr : list Event) : bool :=
  existsb (fun e => is_comment e || is_close e || is_revert e) tr.

(** What a run changes: outputs, failure and REST calls. Log lines and the
    two kinds of query are set aside. *)
Definition is_effect (e : Event) : bool :=
  match e with
  | SetOutput _ _ | SetFailed _ | Rest _ => true
  | Log _ _ | MembershipQuery _ _ _ | CountsQuery _ _ => false
  end.

Definition effects (tr : list Event) : list Event := List.filter is_effect tr.

(** A block that changes nothing unless it returns, and then only sets the
    decision. *)
Definition calm {A : Type} (r : Act A) : Prop :=
  match snd r with
  | Returned => exists d, effects (fst r) = [SetOutput "decision" d]
  | _ => effects (fst r) = []
  end.

End Main.

(** ** src/main.ts, [renderTemplate]

    The run keeps a comment body as its template and values; this is the text
    that [renderTemplate] makes of them. *)

Module Template.

(** [\w]: a letter, a digit or an underscore. *)
Definition is_word (c : ascii) : bool :=
  let n := nat_of_ascii c in
  ((48 <=? n) && (n <=? 57))%nat || ((65 <=? n) && (n <=? 90))%nat
  || ((97 <=? n) && (n <=? 122))%nat || (n =? 95)%nat.

(** A text that [\w+] matches in full. *)
Fixpoint is_words (s : string) : bool :=
  match s with
  | EmptyString => true
  | String c s' => is_word c && is_words s'
  end.

Definition is_identifier (s : string) : bool := JsString.truthy s && is_words s.

(** [String(vars[k] ?? e)], with [e] the empty text, for the object
    [{ author, openCount, allowedOpen, mergedCount }]. A key that is not one
    of the four is looked up in [Object.prototype]: [inherited k] is the text
    [String] gives for the property found there, [None] when there is none. *)
Definition lookup (inherited : string -> option string) (vars : Effects.TemplateVars)
    (k : string) : string :=
  if String.eqb k "author" then Effects.var_author vars
  else if String.eqb k "openCount" then JsString.of_number (Effects.var_openCount vars)
  else if String.eqb k "allowedOpen" then JsString.of_number (Effects.var_allowedOpen vars)
  else if String.eqb k "mergedCount" then JsString.of_number (Effects.var_mergedCount vars)
  else default EmptyString (inherited k).

(** [template.replace(/\{(\w+)\}/g, ...)], read from left to right. [pending]
    is [None] outside a placeholder and [Some key] after an opening brace
    followed by the word characters [key]. A closing brace after a non-empty
    key completes a match, which is replaced; any other character, or the
    end of the text, ends the attempt, the brace and the key are kept, and the
    character is read again outside a placeholder (no match can start inside
    the key, which has no brace). *)
Fixpoint scan (inherited : string -> option string) (vars : Effects.TemplateVars)
    (pending : option string) (s : string) : string :=
  match s with
  | EmptyString =>
      match pending with
      | None => EmptyString
      | Some key => "{" +:+ key
      end
  | String c rest =>
      match pending with
      | None =>
          if Ascii.eqb c "{" then scan inherited vars (Some EmptyString) rest
          else String c (scan inherited vars None rest)
      | Some key =>
          if is_word c then scan inherited vars (Some (key +:+ String c EmptyString)) rest
          else if Ascii.eqb c "}" && JsString.truthy key
               then lookup inherited vars key +:+ scan inherited vars None rest
               else "{" +:+ key
                    +:+ (if Ascii.eqb c "{" then scan inherited vars (Some EmptyString) rest
                         else String c (scan inherited vars None rest))
      end
  end.

(** Lines 8-10 of main.ts. *)
Definition renderTemplate (inherited : string -> option string) (template : string)
    (vars : Effects.TemplateVars) : string :=
  scan inherited vars None template.

End Template.

(** ** Texts with separators *)

(** [sep] does not occur in [s]. *)
Fixpoint free_of (sep : ascii) (s : string) : bool :=
  match s with
  | EmptyString => true
  | String c s' => negb (Ascii.eqb c sep) && free_of sep s'
  end.

(** The text of a list written with separators. *)
Fixpoint separated (sep : ascii) (names : list string) : string :=
  match names with
  | [] => EmptyString
  | [n] => n
  | n :: rest => n +:+ String sep (separated sep rest)
  end.

(** ** Further observations on a trace *)

Module Observe.
Import Effects.
Import Main.


(** Whether the scan of lines 21-53 of exclusions.ts stops at [slug] with an
    exclusion: the slug is valid and its team answers with an active
    membership, or the query fails and failures are skipped. *)
Definition team_excludes (r : Remote) (username : string) (skipOnFailure : bool)
    (slug : string) : bool :=
  match Exclusions.parseTeamSlug slug with
  | None => false
  | Some parsed =>
      match getMembershipForUserInOrg r (Exclusions.org parsed) (Exclusions.team parsed) username with
      | MembershipResponse status state =>
          (status =? 200)%Z && String.eqb state "active"
      | MembershipError _ => skipOnFailure
      end
  end.

Definition is_update (e : Event) : bool :=
  match e with Rest (PullsUpdate _ _ _ _) => true | _ => false end.
Definition is_label (e : Event) : bool :=
  match e with Rest (AddLabels _ _ _ _) => true | _ => false end.
Definition count (p : Event -> bool) (tr : list Event) : nat := length (List.filter p tr).

(** A trace without effects and without a count query. *)
Definition quiet (tr : list Event) : Prop :=
  effects tr = [] ∧ existsb is_counts_query tr = false.

End Observe.

(** ** Scenarios

    Concrete hosts on which the properties below are exercised: one
    repository, one author, and a remote side whose answers are chosen per
    scenario. *)

Module Scenario.
Import Effects.

Definition quote : string := String (ascii_of_nat 34) EmptyString.

(** The JSON text of one rule and the value [JSON.parse] gives for it. *)
Definition rule_text (minMerged allowedOpen : Z) : string :=
  "{" +:+ quote +:+ "minMerged" +:+ quote +:+ ":" +:+ JsString.of_number minMerged
  +:+ "," +:+ quote +:+ "allowedOpen" +:+ quote +:+ ":" +:+ JsString.of_number allowedOpen
  +:+ "}".

Definition rule_json (minMerged allowedOpen : Z) : json :=
  JObj [("minMerged", JNum minMerged); ("allowedOpen", JNum allowedOpen)].

(** The policy of the README, a single-rule policy, a policy with negative
    numbers and the empty policy. *)
Definition readme_policy_text : string :=
  "[" +:+ rule_text 0 1 +:+ "," +:+ rule_text 1 2 +:+ "," +:+ rule_text 3 3 +:+ "]".

Definition one_open_policy_text : string := "[" +:+ rule_text 0 1 +:+ "]".

Definition negative_policy_text : string := "[" +:+ rule_text (-1) (-2) +:+ "]".

Definition empty_policy_text : string := "[]".

(** [JSON.parse] on the texts that the scenarios contain; a team list such
    as ["acme/maintainers"] is not JSON. *)
Definition parse (text : string) : Result json :=
  if String.eqb text readme_policy_text
  then Ok (JArr [rule_json 0 1; rule_json 1 2; rule_json 3 3])
  else if String.eqb text one_open_policy_text then Ok (JArr [rule_json 0 1])
  else if String.eqb text negative_policy_text then Ok (JArr [rule_json (-1) (-2)])
  else if String.eqb text empty_policy_text then Ok (JArr [])
  else Err "Unexpected token in JSON".

Fixpoint setting (settings : list (string * string)) (name : string) : string :=
  match settings with
  | [] => EmptyString
  | (n, v) :: rest => if String.eqb n name then v else setting rest name
  end.

(** A workflow step with the given policy text and further inputs; the
    token comes from the environment. *)
Definition source (policy_text : string) (settings : list (string * string))
  : Config.InputSource :=
  {| Config.raw_input :=
       setting (("policy", policy_text) :: ("closeComment", "Hi {author}, limit reached.")
                :: settings);
     Config.env_GITHUB_TOKEN := Some "ghs_scenario";
     Config.env_TOKEN := None;
     Config.JSON_parse := parse |}.

Definition pull (isDraft : bool) : Main.PullRequest :=
  {| Main.number := 7;
     Main.user := Some {| Main.login := Some "alice"; Main.user_type := Some "User" |};
     Main.draft := isDraft;
     Main.state := Some "open" |}.

Definition context (eventName : string) (action : string) (isDraft : bool) : Main.Context :=
  {| Main.eventName := eventName;
     Main.payload_pull_request := Some (pull isDraft);
     Main.payload_action := Some action;
     Main.repo_owner := "acme";
     Main.repo_repo := "widgets" |}.

(** A remote side that reports the given counts, rejects every membership
    query, and accepts or rejects comments and pull-request updates as
    told; labels are accepted. *)
Definition remote (open merged : Z) (comment_ok update_ok : bool) : Remote :=
  {| getMembershipForUserInOrg := fun _ _ _ => MembershipError "Forbidden";
     graphql := fun _ _ => Ok (open, merged);
     rest := fun call =>
       match call with
       | CreateComment _ _ _ _ => if comment_ok then Ok tt else Err "Resource not accessible"
       | PullsUpdate _ _ _ _ => if update_ok then Ok tt else Err "Resource not accessible"
       | AddLabels _ _ _ _ => Ok tt
       end |}.

(** The inputs that [parseInputs] builds from [source]: every setting not
    listed here keeps its default. *)
Definition inputs (policy : list Config.PolicyRule) (countDrafts skipOnFailure : bool)
    (excludeTeams : list string) : Config.Inputs :=
  {| Config.policy := policy;
     Config.closeComment := "Hi {author}, limit reached.";
     Config.excludeUsers := [];
     Config.excludeTeams := excludeTeams;
     Config.countDrafts := countDrafts;
     Config.skipOnFailure := skipOnFailure;
     Config.revertToDraftOnReady := true;
     Config.backToDraftComment := EmptyString;
     Config.labelWhenClosed := None;
     Config.token := Some "ghs_scenario" |}.

Definition readme_policy : list Config.PolicyRule :=
  [ {| Config.minMerged := 0; Config.allowedOpen := 1 |};
    {| Config.minMerged := 1; Config.allowedOpen := 2 |};
    {| Config.minMerged := 3; Config.allowedOpen := 3 |} ].

Definition one_open_policy : list Config.PolicyRule :=
  [ {| Config.minMerged := 0; Config.allowedOpen := 1 |} ].

Definition host (policy_text : string) (settings : list (string * string))
    (eventName action : string) (isDraft : bool) (r : Remote) : Main.Host :=
  {| Main.source := source policy_text settings;
     Main.context := context eventName action isDraft;
     Main.remote := r |}.

(** The hosts of the scenarios: the author has two open pull requests and
    may have one; the same with comments rejected; a push event; an empty
    and a negative policy; two configured teams; a draft when drafts do not
    count. *)
Definition at_limit_host : Main.Host :=
  host one_open_policy_text [] "pull_request" "opened" false
    (remote 2 0 true true).

Definition comment_rejected_host : Main.Host :=
  host one_open_policy_text [] "pull_request" "opened" false
    (remote 2 0 false true).

Definition push_host : Main.Host :=
  host one_open_policy_text [] "push" "opened" false
    (remote 2 0 true true).

Definition empty_policy_host : Main.Host :=
  host empty_policy_text [] "pull_request" "opened" false
    (remote 1 0 true true).

Definition negative_policy_host : Main.Host :=
  host negative_policy_text [] "pull_request" "opened" false
    (remote 1 0 true true).

Definition teams_host : Main.Host :=
  host one_open_policy_text
    [("excludeTeams", "acme/maintainers, acme/admins")] "pull_request" "opened" false
    (remote 2 0 true true).

Definition draft_host : Main.Host :=
  host one_open_policy_text [("countDrafts", "false")]
    "pull_request" "opened" true (remote 2 0 true true).

(** *** Further scenarios *)

Definition broken_policy_text : string := "[" +:+ rule_text 0 1 +:+ ",7]".

Definition parse_more (text : string) : Result json :=
  if String.eqb text broken_policy_text then Ok (JArr [rule_json 0 1; JNum 7])
  else parse text.

(** A step with no input and no token at all. *)
Definition bare_source : Config.InputSource :=
  {| Config.raw_input := fun _ => EmptyString;
     Config.env_GITHUB_TOKEN := None;
     Config.env_TOKEN := None;
     Config.JSON_parse := parse |}.

(** A step with its required inputs and no token. *)
Definition tokenless_source : Config.InputSource :=
  {| Config.raw_input :=
       setting [("policy", one_open_policy_text);
                ("closeComment", "Hi {author}, limit reached.")];
     Config.env_GITHUB_TOKEN := None;
     Config.env_TOKEN := None;
     Config.JSON_parse := parse |}.

(** A step whose policy has a number where its second rule should be. *)
Definition broken_policy_source : Config.InputSource :=
  {| Config.raw_input :=
       setting [("policy", broken_policy_text);
                ("closeComment", "Hi {author}, limit reached.")];
     Config.env_GITHUB_TOKEN := Some "ghs_scenario";
     Config.env_TOKEN := None;
     Config.JSON_parse := parse_more |}.

Definition bot_pull : Main.PullRequest :=
  {| Main.number := 8;
     Main.user := Some {| Main.login := Some "dependabot[bot]";
                          Main.user_type := Some "Bot" |};
     Main.draft := false;
     Main.state := Some "open" |}.

Definition closed_pull : Main.PullRequest :=
  {| Main.number := 9;
     Main.user := Some {| Main.login := Some "alice"; Main.user_type := Some "User" |};
     Main.draft := false;
     Main.state := Some "closed" |}.

Definition context_of (pr : Main.PullRequest) : Main.Context :=
  {| Main.eventName := "pull_request";
     Main.payload_pull_request := Some pr;
     Main.payload_action := Some "opened";
     Main.repo_owner := "acme";
     Main.repo_repo := "widgets" |}.

(** A remote side whose count query fails. *)
Definition unreachable_remote : Remote :=
  {| getMembershipForUserInOrg := fun _ _ _ => MembershipError "Forbidden";
     graphql := fun _ _ => Err "Bad credentials";
     rest := fun _ => Ok tt |}.

(** A remote side that accepts everything but labels. *)
Definition label_rejecting_remote : Remote :=
  {| getMembershipForUserInOrg := fun _ _ _ => MembershipError "Forbidden";
     graphql := fun _ _ => Ok (2, 0)%Z;
     rest := fun call =>
       match call with
       | AddLabels _ _ _ _ => Err "Label does not exist"
       | _ => Ok tt
       end |}.

(** The inputs a source parses to (the inputs of the first scenario if it
    does not parse). *)
Definition parsed (src : Config.InputSource) : Config.Inputs :=
  match Config.parseInputs src with
  | Ok parsed_inputs => parsed_inputs
  | Err _ => inputs one_open_policy true true []
  end.

Definition bare_host : Main.Host :=
  {| Main.source := bare_source; Main.context := context "pull_request" "opened" false;
     Main.remote := remote 2 0 true true |}.

Definition tokenless_host : Main.Host :=
  {| Main.source := tokenless_source; Main.context := context "pull_request" "opened" false;
     Main.remote := remote 2 0 true true |}.

Definition broken_policy_host : Main.Host :=
  {| Main.source := broken_policy_source;
     Main.context := context "pull_request" "opened" false;
     Main.remote := remote 2 0 true true |}.

Definition bot_host : Main.Host :=
  {| Main.source := source one_open_policy_text []; Main.context := context_of bot_pull;
     Main.remote := remote 2 0 true true |}.

Definition listed_user_host : Main.Host :=
  host one_open_policy_text [("excludeUsers", "Alice, bob")] "pull_request" "opened" false
    (remote 2 0 true true).

Definition closed_pull_host : Main.Host :=
  {| Main.source := source one_open_policy_text []; Main.context := context_of closed_pull;
     Main.remote := remote 2 0 true true |}.

Definition unreachable_host : Main.Host :=
  host one_open_policy_text [] "pull_request" "opened" false unreachable_remote.

Definition revert_host : Main.Host :=
  host one_open_policy_text [("countDrafts", "false")] "pull_request" "ready_for_review"
    false (remote 3 0 true true).

Definition label_rejected_host : Main.Host :=
  host one_open_policy_text [("labelWhenClosed", "throttled")] "pull_request" "opened"
    false label_rejecting_remote.

End Scenario.

(** * Properties *)

Import Effects.
Import Main.

(** ** The policy table *)

Section PolicyTable.
Import Config.

Lemma sort_insert_perm (x : PolicyRule) (l : list PolicyRule) :
  sort_insert byMinMerged x l ≡ₚ x :: l.
Proof.
  induction l as [|y l IH]; simpl; [done|].
  destruct (byMinMerged x y <=? 0)%Z; [done|].
  rewrite IH. apply Permutation_swap.
Qed.

Lemma Array_sort_perm (l : list PolicyRule) : Array_sort byMinMerged l ≡ₚ l.
Proof.
  induction l as [|x l IH]; simpl; [done|].
  rewrite sort_insert_perm. by rewrite IH.
Qed.

Lemma sort_insert_ascending (x : PolicyRule) (l : list PolicyRule) :
  ascending l → ascending (sort_insert byMinMerged x l).
Proof.
  unfold ascending. induction 1 as [|y l Hs IH Hy]; simpl.
  - repeat constructor.
  - unfold byMinMerged at 1.
    destruct (Z.leb_spec (minMerged x - minMerged y) 0).
    + constructor; [by constructor|].
      constructor; [lia|].
      eapply Forall_impl; [exact Hy|]. simpl. intros; lia.
    + constructor; [exact IH|].
      rewrite sort_insert_perm. constructor; [lia | exact Hy].
Qed.

Lemma Array_sort_ascending (l : list PolicyRule) : ascending (Array_sort byMinMerged l).
Proof.
  induction l as [|x l IH]; simpl.
  - constructor.
  - by apply sort_insert_ascending.
Qed.

Lemma sort_insert_stable (k : Z) (x : PolicyRule) (l : list PolicyRule) :
  filter (fun r => minMerged r = k) (sort_insert byMinMerged x l)
  = filter (fun r => minMerged r = k) (x :: l).
Proof.
  induction l as [|y l IH]; simpl; [done|].
  unfold byMinMerged at 1.
  destruct (Z.leb_spec (minMerged x - minMerged y) 0); [done|].
  rewrite (filter_cons _ y), IH, !filter_cons.
  repeat case_decide; try done; lia.
Qed.

Lemma Array_sort_stable (k : Z) (l : list PolicyRule) :
  filter (fun r => minMerged r = k) (Array_sort byMinMerged l)
  = filter (fun r => minMerged r = k) l.
Proof.
  induction l as [|x l IH]; simpl; [done|].
  by rewrite sort_insert_stable, !filter_cons, IH.
Qed.

Lemma ascending_stable_unique (l1 l2 : list PolicyRule) :
  ascending l1 → ascending l2 →
  (∀ k, filter (fun r => minMerged r = k) l1 = filter (fun r => minMerged r = k) l2) →
  l1 = l2.
Proof.
  intros H1. revert l2. induction H1 as [|x l1 Hs1 IH Hx]; intros l2 H2 Heq.
  - destruct l2 as [|y l2]; [done|].
    specialize (Heq (minMerged y)). rewrite filter_nil, filter_cons in Heq.
    by case_decide.
  - destruct H2 as [|y l2 Hs2 Hy].
    + specialize (Heq (minMerged x)). rewrite filter_nil, filter_cons in Heq.
      by case_decide.
    + assert (Hxy : (minMerged x <= minMerged y)%Z).
      { assert (Hin : y ∈ filter (fun r => minMerged r = minMerged y) (x :: l1)).
        { rewrite Heq, filter_cons. case_decide; [|done]. left. }
        apply list_elem_of_filter in Hin as [_ Hin].
        apply elem_of_cons in Hin as [->|Hin]; [lia|].
        rewrite Forall_forall in Hx. by apply Hx. }
      assert (Hyx : (minMerged y <= minMerged x)%Z).
      { assert (Hin : x ∈ filter (fun r => minMerged r = minMerged x) (y :: l2)).
        { rewrite <- Heq, filter_cons. case_decide; [|done]. left. }
        apply list_elem_of_filter in Hin as [_ Hin].
        apply elem_of_cons in Hin as [->|Hin]; [lia|].
        rewrite Forall_forall in Hy. by apply Hy. }
      assert (x = y) as ->.
      { specialize (Heq (minMerged x)). rewrite !filter_cons in Heq.
        repeat case_decide; try lia. congruence. }
      f_equal. apply IH; [done|].
      intros k. specialize (Heq k). rewrite !filter_cons in Heq.
      case_decide; congruence.
Qed.

Lemma last_cons_default {A : Type} (a d : A) (l : list A) :
  List.last (a :: l) d = List.last l a.
Proof.
  revert a d. induction l as [|b l IH]; intros a d; [done|].
  change (List.last (a :: b :: l) d) with (List.last (b :: l) d).
  by rewrite !IH.
Qed.

Lemma select_rule_split (m : Z) (s : list PolicyRule) (sel : PolicyRule) :
  ∃ pre post,
    s = pre ++ post
    ∧ Forall (fun r => (minMerged r <= m)%Z) pre
    ∧ match post with [] => True | r :: _ => (m < minMerged r)%Z end
    ∧ select_rule m sel s = List.last pre sel.
Proof.
  revert sel. induction s as [|r s IH]; intros sel.
  - exists [], []. by repeat split.
  - simpl. destruct (Z.geb_spec m (minMerged r)) as [Hle|Hgt].
    + destruct (IH r) as (pre & post & -> & Hpre & Hpost & Hsel).
      exists (r :: pre), post. repeat split; try done.
      * constructor; [lia | done].
      * by rewrite Hsel, last_cons_default.
    + exists [], (r :: s). by repeat split.
Qed.

Lemma Array_sort_unique (policy sorted : list PolicyRule) :
  ascending sorted →
  (∀ k, filter (fun r => minMerged r = k) sorted
        = filter (fun r => minMerged r = k) policy) →
  sorted = Array_sort byMinMerged policy.
Proof.
  intros Hasc Hstable. apply ascending_stable_unique; [done | apply Array_sort_ascending |].
  intros k. by rewrite Hstable, Array_sort_stable.
Qed.

(** C1. For a non-empty policy [P] and [0 <= m], with [sorted] the stable
    ascending arrangement of [P]: if some rule has [minMerged <= m], then
    [allowedOpenFromPolicy P m] is the [allowedOpen] of a rule [r] of [sorted]
    with [minMerged r <= m], no rule at or below [m] has a greater
    [minMerged], and every rule after [r] in [sorted] has a greater
    [minMerged] (so [r] is the last of its ties); if [m] is below every
    rule, the result is the [allowedOpen] of the first rule of [sorted],
    whose [minMerged] is the smallest. *)
Theorem allowedOpenFromPolicy_greatest_at_most (P : list PolicyRule) (m : Z) :
  P ≠ [] → (0 <= m)%Z →
  let sorted := Array_sort byMinMerged P in
  (sorted ≡ₚ P ∧ ascending sorted
   ∧ ∀ k, filter (fun r => minMerged r = k) sorted = filter (fun r => minMerged r = k) P)
  ∧ ((∃ r, r ∈ P ∧ (minMerged r <= m)%Z) →
     ∃ pre r post,
       sorted = pre ++ r :: post
       ∧ allowedOpenFromPolicy P m = allowedOpen r
       ∧ (minMerged r <= m)%Z
       ∧ (∀ r', r' ∈ P → (minMerged r' <= m)%Z → (minMerged r' <= minMerged r)%Z)
       ∧ (∀ r', r' ∈ post → (minMerged r < minMerged r')%Z))
  ∧ ((∀ r, r ∈ P → (m < minMerged r)%Z) →
     ∃ r post,
       sorted = r :: post
       ∧ allowedOpenFromPolicy P m = allowedOpen r
       ∧ (∀ r', r' ∈ P → (minMerged r <= minMerged r')%Z)).
Proof.
  intros Hne _ sorted.
  pose proof (Array_sort_perm P) as Hperm.
  pose proof (Array_sort_ascending P) as Hasc.
  fold sorted in Hperm, Hasc.
  split; [split; [done | split; [done | intros k; apply Array_sort_stable]]|].
  assert (Hval : allowedOpenFromPolicy P m = select_allowedOpen sorted m).
  { unfold allowedOpenFromPolicy. destruct P; [done|]. done. }
  destruct sorted as [|first rest] eqn:Hsorted.
  { apply Permutation_nil_l in Hperm. by subst. }
  unfold select_allowedOpen in Hval.
  destruct (select_rule_split m (first :: rest) first)
    as (pre & post & Hsplit & Hpre & Hpost & Hsel).
  rewrite Hsel in Hval. clear Hsel.
  destruct (decide (pre = [])) as [->|Hpre_ne].
  - (* the first rule of the table is already above [m] *)
    simpl in Hsplit, Hval. subst post.
    assert (Hall : ∀ r', r' ∈ P → (m < minMerged r')%Z).
    { intros r' Hin. rewrite <- Hperm in Hin.
      apply elem_of_cons in Hin as [->|Hin]; [done|].
      apply StronglySorted_inv in Hasc as [_ Hfirst].
      rewrite Forall_forall in Hfirst. specialize (Hfirst _ Hin). simpl in Hfirst. lia. }
    split.
    + intros (r & Hin & Hle). specialize (Hall _ Hin). lia.
    + intros _. exists first, rest. split; [done|]. split; [done|].
      intros r' Hin. rewrite <- Hperm in Hin.
      apply elem_of_cons in Hin as [->|Hin]; [lia|].
      apply StronglySorted_inv in Hasc as [_ Hfirst].
      rewrite Forall_forall in Hfirst. by apply Hfirst.
  - (* some prefix of the table is at or below [m]; its last rule is selected *)
    destruct (exists_last Hpre_ne) as (pre0 & r & ->).
    rewrite List.last_last in Hval.
    rewrite <- app_assoc in Hsplit. simpl in Hsplit.
    apply Forall_app in Hpre as [Hpre0 Hr].
    rewrite Forall_singleton in Hr.
    rewrite Hsplit in Hasc, Hperm.
    unfold ascending in Hasc.
    pose proof (StronglySorted_app_1_r _ _ _ Hasc) as Hasc_r.
    apply StronglySorted_inv in Hasc_r as [Hpost_sorted Hr_post].
    assert (Hpost_gt : ∀ r', r' ∈ post → (m < minMerged r')%Z).
    { intros r' Hin. destruct post as [|p post']; [by apply elem_of_nil in Hin|].
      apply elem_of_cons in Hin as [->|Hin]; [done|].
      apply StronglySorted_inv in Hpost_sorted as [_ Hp].
      rewrite Forall_forall in Hp. specialize (Hp _ Hin). simpl in Hp. lia. }
    split.
    + intros _. exists pre0, r, post.
      split; [done|]. split; [done|]. split; [done|]. split.
      * intros r' Hin Hle. rewrite <- Hperm in Hin.
        apply elem_of_app in Hin as [Hin|Hin].
        -- apply (StronglySorted_app_1_elem_of _ _ _ r' r Hasc Hin). left.
        -- apply elem_of_cons in Hin as [->|Hin]; [lia|].
           specialize (Hpost_gt _ Hin). lia.
      * intros r' Hin. specialize (Hpost_gt _ Hin). lia.
    + intros Hall. exfalso.
      assert (Hin : r ∈ P). { rewrite <- Hperm. apply elem_of_app. right. left. }
      specialize (Hall _ Hin). lia.
Qed.

End PolicyTable.

(** The README policy at [m = 2]: the rule with [minMerged = 1] is selected. *)
Lemma allowedOpenFromPolicy_greatest_at_most_witness :
  ∃ pre r post,
    Config.Array_sort Config.byMinMerged Scenario.readme_policy = pre ++ r :: post
    ∧ Config.allowedOpenFromPolicy Scenario.readme_policy 2 = Config.allowedOpen r
    ∧ (Config.minMerged r <= 2)%Z
    ∧ (∀ r', r' ∈ Scenario.readme_policy → (Config.minMerged r' <= 2)%Z →
         (Config.minMerged r' <= Config.minMerged r)%Z)
    ∧ (∀ r', r' ∈ post → (Config.minMerged r < Config.minMerged r')%Z).
Proof.
  destruct (allowedOpenFromPolicy_greatest_at_most Scenario.readme_policy 2)
    as (_ & Hsome & _); [discriminate | lia |].
  apply Hsome. exists {| Config.minMerged := 0; Config.allowedOpen := 1 |}.
  split; [left | simpl; lia].
Defined.

(** C10. [allowedOpenFromPolicy] leaves its argument as it was: after the call
    the policy array holds the same rules in the same order, every other
    array of the store is unchanged as well (the sort rearranges the copy),
    and the value returned is the one computed on array values. *)
Theorem allowedOpenFromPolicy_ref_frame (σ : gmap positive (list Config.PolicyRule))
    (policy : positive) (mergedCount : Z) (rules : list Config.PolicyRule) :
  σ !! policy = Some rules →
  snd (Config.allowedOpenFromPolicy_ref policy mergedCount σ) !! policy = Some rules
  ∧ (∀ a arr, σ !! a = Some arr →
       snd (Config.allowedOpenFromPolicy_ref policy mergedCount σ) !! a = Some arr)
  ∧ fst (Config.allowedOpenFromPolicy_ref policy mergedCount σ)
    = Config.allowedOpenFromPolicy rules mergedCount.
Proof.
  intros Hpolicy.
  assert (Hframe : ∀ a arr, σ !! a = Some arr →
            snd (Config.allowedOpenFromPolicy_ref policy mergedCount σ) !! a = Some arr).
  { intros a arr Ha.
    unfold Config.allowedOpenFromPolicy_ref, Config.array_spread, Config.array_sort_in_place.
    destruct (length _ =? 0)%nat; simpl; [done|].
    assert (Hne : fresh (dom σ) ≠ a).
    { intros <-. apply (is_fresh (dom σ)). apply elem_of_dom. eauto. }
    by rewrite !lookup_insert_ne. }
  split; [by apply Hframe|]. split; [exact Hframe|].
  unfold Config.allowedOpenFromPolicy_ref, Config.allowedOpenFromPolicy,
    Config.array_spread, Config.array_sort_in_place, Config.array_contents.
  rewrite Hpolicy. simpl.
  destruct (length rules =? 0)%nat; simpl; [done|].
  by rewrite !lookup_insert_eq.
Qed.

(** By contrast, sorting the policy array itself would rearrange it. *)
Example array_sort_in_place_rearranges :
  let σ : gmap positive (list Config.PolicyRule) :=
    {[ 1%positive := [ {| Config.minMerged := 3; Config.allowedOpen := 3 |};
                       {| Config.minMerged := 0; Config.allowedOpen := 1 |} ] ]} in
  snd (Config.array_sort_in_place Config.byMinMerged 1%positive σ) !! 1%positive
  = Some [ {| Config.minMerged := 0; Config.allowedOpen := 1 |};
           {| Config.minMerged := 3; Config.allowedOpen := 3 |} ].
Proof. reflexivity. Qed.

(** A store with one array, out of order. *)
Lemma allowedOpenFromPolicy_ref_frame_witness :
  let σ : gmap positive (list Config.PolicyRule) :=
    {[ 1%positive := [ {| Config.minMerged := 3; Config.allowedOpen := 3 |};
                       {| Config.minMerged := 0; Config.allowedOpen := 1 |} ] ]} in
  snd (Config.allowedOpenFromPolicy_ref 1%positive 2 σ) !! 1%positive
  = Some [ {| Config.minMerged := 3; Config.allowedOpen := 3 |};
           {| Config.minMerged := 0; Config.allowedOpen := 1 |} ]
  ∧ (∀ a arr, σ !! a = Some arr →
       snd (Config.allowedOpenFromPolicy_ref 1%positive 2 σ) !! a = Some arr)
  ∧ fst (Config.allowedOpenFromPolicy_ref 1%positive 2 σ)
    = Config.allowedOpenFromPolicy
        [ {| Config.minMerged := 3; Config.allowedOpen := 3 |};
          {| Config.minMerged := 0; Config.allowedOpen := 1 |} ] 2.
Proof.
  intros σ. apply (allowedOpenFromPolicy_ref_frame σ 1%positive 2). reflexivity.
Defined.

(** ** The effective open count *)

(** C3. The effective open count is the raw count minus one when the current
    pull request is part of the search result, that is when drafts count or
    the pull request is not a draft, and the raw count otherwise: minus one
    with [countDrafts], minus zero for a draft without [countDrafts], minus
    one for a non-draft without [countDrafts]. *)
Theorem effectiveOpen_formula (raw : Z) (countDrafts isDraft : bool) :
  effectiveOpen raw countDrafts isDraft
  = (raw - (if countDrafts || negb isDraft then 1 else 0))%Z
  ∧ effectiveOpen raw true isDraft = (raw - 1)%Z
  ∧ effectiveOpen raw false true = (raw - 0)%Z
  ∧ effectiveOpen raw false false = (raw - 1)%Z.
Proof. by destruct countDrafts, isDraft. Qed.

(** ** The run *)

(** *** Blocks *)

Lemma bind_unfold {A B : Type} (m : Act A) (k : A → Act B) :
  m ≫= k =
  match snd m with
  | Next a => (fst m ++ fst (k a), snd (k a))
  | Returned => (fst m, Returned)
  | Thrown e => (fst m, Thrown e)
  end.
Proof. by destruct m as [tr []]. Qed.

Ltac act_unfold :=
  unfold skipped, info, warning, setOutput, emit, return_, throw, when, lift, ran;
  unfold mbind, mret, Act_bind, Act_ret, act_bind; simpl.

(** *** What the entry gates test

    A gate is passed when its block falls through. The lemmas of this part
    spell out, on the host, what that takes: for [preamble] the inputs parse,
    the event is a pull-request event with a payload, the author is known,
    is not a bot and is not on the user list, and a token is at hand; for
    [teamsGate] no team is configured or the scan reports no exclusion; for
    [draftGate] drafts count or the pull request is not a draft; for
    [countsStage] the pull request is open and the count query answers. *)

Lemma preamble_next_iff (h : Host) inputs pr author :
  snd (preamble h) = Next (inputs, pr, author) ↔
  Config.parseInputs (source h) = Ok inputs
  ∧ (eventName (context h) = "pull_request"
     ∨ eventName (context h) = "pull_request_target")
  ∧ payload_pull_request (context h) = Some pr
  ∧ JsString.or_undefined (user_login pr) = Some author
  ∧ isBotUser (user_type_of pr) author = false
  ∧ is_Some (JsString.or_undefined
               (JsString.or_else (Config.token inputs)
                  (Config.env_GITHUB_TOKEN (source h))))
  ∧ Exclusions.isUserExcludedByList (Config.excludeUsers inputs) author = false.
Proof.
  unfold preamble.
  destruct (Config.parseInputs (source h)) as [inputs'|e]; act_unfold;
    [|split; [done | by intros [? _]]].
  destruct (String.eqb_spec (eventName (context h)) "pull_request") as [He|He];
    destruct (String.eqb_spec (eventName (context h)) "pull_request_target") as [He'|He'];
    act_unfold; try (split; [done | by intros (_ & [?|?] & _)]).
  all: destruct (payload_pull_request (context h)) as [pr'|]; act_unfold;
    [|split; [done | by intros (_ & _ & ? & _)]].
  all: destruct (JsString.or_undefined (user_login pr')) as [author'|] eqn:Ha;
    act_unfold;
    [|split; [done | intros (_ & _ & [= <-] & Ha' & _); congruence]].
  all: destruct (isBotUser (user_type_of pr') author') eqn:Hb; act_unfold;
    [split; [done | intros (_ & _ & [= <-] & Ha' & Hb' & _); congruence]|].
  all: destruct (JsString.or_undefined
                   (JsString.or_else (Config.token inputs')
                      (Config.env_GITHUB_TOKEN (source h)))) as [token|] eqn:Ht;
    act_unfold;
    [|split; [done | intros ([= <-] & _ & _ & _ & _ & [t Ht'] & _); congruence]].
  all: destruct (Exclusions.isUserExcludedByList (Config.excludeUsers inputs') author')
         eqn:Hl; act_unfold;
    [split; [done | intros ([= <-] & _ & [= <-] & Ha' & _ & _ & Hl'); congruence]|].
  all: split;
    [intros [= <- <- <-]; rewrite ?Ht; eauto 10
    |intros ([= <-] & _ & [= <-] & Ha' & _); congruence].
Qed.

Lemma teamsGate_next_iff (h : Host) inputs author :
  snd (teamsGate h inputs author) = Next tt ↔
  Config.excludeTeams inputs = []
  ∨ snd (Exclusions.isUserExcludedByTeams (remote h) (Config.excludeTeams inputs) author
           (Config.skipOnFailure inputs)) = false.
Proof.
  unfold teamsGate.
  generalize (Exclusions.isUserExcludedByTeams (remote h) (Config.excludeTeams inputs)
                author (Config.skipOnFailure inputs)).
  intros [tr excluded].
  destruct (Config.excludeTeams inputs) as [|slug rest]; [simpl; split; auto|].
  change (0 <? length (slug :: rest))%nat with true. act_unfold.
  destruct excluded; simpl.
  - split; [done | by intros [?|?]].
  - split; auto.
Qed.

Lemma draftGate_next_iff inputs pr :
  snd (draftGate inputs pr) = Next tt ↔ Config.countDrafts inputs = true ∨ draft pr = false.
Proof.
  unfold draftGate. destruct (Config.countDrafts inputs), (draft pr); act_unfold;
    split; intros H; auto; try discriminate H; destruct H; discriminate.
Qed.

Lemma countsStage_next_iff (h : Host) inputs pr author counts :
  snd (countsStage h inputs pr author) = Next counts ↔
  default "open" (JsString.or_undefined (state pr)) = "open"
  ∧ snd (Graphql.fetchAuthorPRCounts (remote h) (repo_owner (context h))
           (repo_repo (context h)) author (Config.countDrafts inputs)) = Next counts.
Proof.
  unfold countsStage.
  destruct (String.eqb_spec (default "open" (JsString.or_undefined (state pr))) "open")
    as [Hs|Hs]; act_unfold; [|split; [done | by intros [? _]]].
  unfold try_catch, Graphql.fetchAuthorPRCounts.
  destruct (graphql _ _ _) as [[open merged]|e]; simpl.
  - split; [auto | by intros [_ ?]].
  - destruct (Config.skipOnFailure inputs); simpl; split; try done; by intros [_ ?].
Qed.

Lemma entry_next_iff (h : Host) inputs pr author counts :
  snd (entry h) = Next (inputs, pr, author, counts) ↔
  snd (preamble h) = Next (inputs, pr, author)
  ∧ snd (teamsGate h inputs author) = Next tt
  ∧ snd (draftGate inputs pr) = Next tt
  ∧ snd (countsStage h inputs pr author) = Next counts.
Proof.
  unfold entry. rewrite bind_unfold.
  destruct (snd (preamble h)) as [[[inputs' pr'] author']| |e];
    [|split; [done | by intros [? _]] ..].
  cbv beta iota. cbn [snd]. rewrite bind_unfold.
  destruct (snd (teamsGate h inputs' author')) as [[]| |e] eqn:Ht; cbn [snd].
  2,3: split; [done | intros ([= <- <- <-] & ? & _); congruence].
  rewrite bind_unfold.
  destruct (snd (draftGate inputs' pr')) as [[]| |e] eqn:Hd; cbn [snd].
  2,3: split; [done | intros ([= <- <- <-] & _ & ? & _); congruence].
  rewrite bind_unfold.
  destruct (snd (countsStage h inputs' pr' author')) as [counts'| |e] eqn:Hc; cbn [snd].
  2,3: split; [done | intros ([= <- <- <-] & _ & _ & ?); congruence].
  simpl. split.
  - intros [= <- <- <- <-]. auto.
  - intros ([= <- <- <-] & _ & _ & ?). congruence.
Qed.

(** *** The gates change nothing until they return *)

Lemma preamble_cases (h : Host) :
  (∃ x, preamble h = ([], Next x))
  ∨ (∃ level line, preamble h = ([Log level line; SetOutput "decision" "skipped"], Returned))
  ∨ (∃ message, preamble h = ([], Thrown message)).
Proof.
  unfold preamble.
  destruct (Config.parseInputs (source h)) as [inputs|e]; act_unfold; [|eauto].
  destruct (negb _ && negb _); act_unfold; [eauto 6|].
  destruct (payload_pull_request (context h)) as [pr|]; act_unfold; [|eauto 6].
  destruct (JsString.or_undefined _) as [author|]; act_unfold; [|eauto 6].
  destruct (isBotUser _ author); act_unfold; [eauto 6|].
  destruct (JsString.or_undefined _) as [token|]; act_unfold; [|eauto 6].
  destruct (Exclusions.isUserExcludedByList _ author); act_unfold; eauto 6.
Qed.

Lemma effects_app (a b : list Event) : effects (a ++ b) = effects a ++ effects b.
Proof. apply List.filter_app. Qed.

Lemma calm_bind {A B : Type} (m : Act A) (k : A → Act B) :
  calm m → (∀ a, calm (k a)) → calm (m ≫= k).
Proof.
  intros Hm Hk. rewrite bind_unfold. unfold calm in *.
  destruct (snd m) as [a| |e]; simpl; [|done|done].
  specialize (Hk a). rewrite effects_app, Hm. simpl.
  by destruct (snd (k a)).
Qed.

Lemma outputs_effects (name : string) (tr : list Event) :
  outputs name tr = outputs name (effects tr).
Proof.
  induction tr as [|e tr IH]; [done|].
  destruct e; simpl; try done.
  by rewrite IH.
Qed.

Lemma existsb_effects (p : Event → bool) (tr : list Event) :
  (∀ e, p e = true → is_effect e = true) →
  existsb p tr = existsb p (effects tr).
Proof.
  intros Hp. induction tr as [|e tr IH]; [done|].
  simpl. destruct (is_effect e) eqn:He; simpl; rewrite IH; [done|].
  destruct (p e) eqn:Hpe; [|done].
  apply Hp in Hpe. congruence.
Qed.

Lemma acted_effects (tr : list Event) : acted tr = acted (effects tr).
Proof.
  apply existsb_effects. intros [| | | | |[]]; simpl; done.
Qed.

Lemma scan_effects (r : Remote) (teams : list string) (username : string) (skip : bool) :
  effects (fst (Exclusions.isUserExcludedByTeams r teams username skip)) = [].
Proof.
  induction teams as [|slug rest IH]; simpl; [done|].
  destruct (Exclusions.parseTeamSlug slug) as [parsed|]; simpl; [|done].
  destruct (getMembershipForUserInOrg r _ _ username) as [status st|msg].
  - by destruct (_ && _).
  - by destruct skip.
Qed.

Lemma scan_no_counts_query (r : Remote) (teams : list string) (username : string)
    (skip : bool) :
  existsb is_counts_query (fst (Exclusions.isUserExcludedByTeams r teams username skip))
  = false.
Proof.
  induction teams as [|slug rest IH]; simpl; [done|].
  destruct (Exclusions.parseTeamSlug slug) as [parsed|]; simpl; [|done].
  destruct (getMembershipForUserInOrg r _ _ username) as [status st|msg].
  - by destruct (_ && _).
  - by destruct skip.
Qed.

Lemma scan_app (r : Remote) (pre rest : list string) (username : string) (skip : bool) :
  snd (Exclusions.isUserExcludedByTeams r pre username skip) = false →
  Exclusions.isUserExcludedByTeams r (pre ++ rest) username skip
  = (fst (Exclusions.isUserExcludedByTeams r pre username skip)
     ++ fst (Exclusions.isUserExcludedByTeams r rest username skip),
     snd (Exclusions.isUserExcludedByTeams r rest username skip)).
Proof.
  induction pre as [|slug pre IH]; simpl.
  - intros _. by destruct (Exclusions.isUserExcludedByTeams r rest username skip).
  - destruct (Exclusions.parseTeamSlug slug) as [parsed|]; simpl.
    + destruct (getMembershipForUserInOrg r _ _ username) as [status st|msg].
      * destruct (_ && _); simpl; [done|]. intros H. by rewrite (IH H).
      * destruct skip; simpl; [done|]. intros H. by rewrite (IH H).
    + intros H. by rewrite (IH H).
Qed.

Lemma preamble_next (h : Host) x : snd (preamble h) = Next x → preamble h = ([], Next x).
Proof.
  destruct (preamble_cases h) as [[y ->]|[(level & line & ->)|[message ->]]];
    simpl; congruence.
Qed.

Lemma preamble_calm (h : Host) : calm (preamble h).
Proof.
  destruct (preamble_cases h) as [[x ->]|[(level & line & ->)|[message ->]]];
    unfold calm; simpl; eauto.
Qed.

Lemma teamsGate_cases (h : Host) (inputs : Config.Inputs) (author : string) :
  ∃ tr, effects tr = []
    ∧ existsb is_counts_query tr = false
    ∧ (teamsGate h inputs author = (tr, Next tt)
       ∨ teamsGate h inputs author
         = (tr ++ [Log Info (AuthorExcludedByTeams author);
                   SetOutput "decision" "skipped"], Returned)).
Proof.
  unfold teamsGate.
  destruct (0 <? _)%nat; act_unfold; [|by exists []; auto].
  pose proof (scan_effects (remote h) (Config.excludeTeams inputs) author
                (Config.skipOnFailure inputs)) as Hq.
  pose proof (scan_no_counts_query (remote h) (Config.excludeTeams inputs) author
                (Config.skipOnFailure inputs)) as Hc.
  destruct (Exclusions.isUserExcludedByTeams _ _ _ _) as [tr excluded]; simpl in *.
  exists tr. split; [done|]. split; [done|].
  destruct excluded; simpl; [by right|left]. by rewrite app_nil_r.
Qed.

Lemma teamsGate_calm (h : Host) (inputs : Config.Inputs) (author : string) :
  calm (teamsGate h inputs author).
Proof.
  destruct (teamsGate_cases h inputs author) as (tr & Hq & _ & [-> | ->]);
    unfold calm; simpl; [done|].
  rewrite effects_app, Hq. simpl. eauto.
Qed.

Lemma draftGate_calm (inputs : Config.Inputs) (pr : PullRequest) :
  calm (draftGate inputs pr).
Proof.
  unfold draftGate. destruct (_ && _); act_unfold; unfold calm; simpl; eauto.
Qed.

Lemma countsStage_calm (h : Host) (inputs : Config.Inputs) (pr : PullRequest)
    (author : string) :
  calm (countsStage h inputs pr author).
Proof.
  unfold countsStage, Graphql.fetchAuthorPRCounts.
  destruct (negb _); act_unfold; unfold calm; simpl; [eauto|].
  destruct (graphql _ _ _) as [[open merged]|e]; simpl; [done|].
  destruct (Config.skipOnFailure inputs); simpl; eauto.
Qed.

Lemma entry_calm (h : Host) : calm (entry h).
Proof.
  unfold entry.
  apply calm_bind; [apply preamble_calm|]. intros [[inputs pr] author].
  apply calm_bind; [apply teamsGate_calm|]. intros _.
  apply calm_bind; [apply draftGate_calm|]. intros _.
  apply calm_bind; [apply countsStage_calm|]. intros counts.
  done.
Qed.

(** *** After the gates *)

Lemma run_passed (h : Host) inputs pr author counts :
  snd (entry h) = Next (inputs, pr, author, counts) →
  run h = fst (entry h) ++ catch_all (decideAction h inputs pr author counts).
Proof.
  intros H. unfold run, run_body, catch_all. rewrite bind_unfold, H.
  cbv beta iota.
  destruct (decideAction h inputs pr author counts) as [tr [u| |e]]; simpl;
    [done | done | by rewrite app_assoc].
Qed.

Lemma run_returned (h : Host) : snd (entry h) = Returned → run h = fst (entry h).
Proof.
  intros H. unfold run, run_body, catch_all. by rewrite bind_unfold, H.
Qed.

Lemma run_thrown (h : Host) (e : string) :
  snd (entry h) = Thrown e → run h = fst (entry h) ++ [SetFailed e].
Proof.
  intros H. unfold run, run_body, catch_all. by rewrite bind_unfold, H.
Qed.

(** *** The enforcement block *)

Ltac branch_unfold :=
  unfold enforce, revertBranch, closeBranch, try_catch, await_rest, catch_all;
  act_unfold.

Ltac step_case inputs :=
  match goal with
  | |- context [Config.skipOnFailure inputs] =>
      destruct (Config.skipOnFailure inputs) eqn:?
  | |- context [negb (Config.countDrafts inputs) && Config.revertToDraftOnReady inputs
                && bool_decide ?p] =>
      destruct (negb (Config.countDrafts inputs) && Config.revertToDraftOnReady inputs
                && bool_decide p) eqn:?
  | |- context [(0 <? String.length (JsString.trim (Config.backToDraftComment inputs)))%nat] =>
      destruct (0 <? String.length (JsString.trim (Config.backToDraftComment inputs)))%nat
        eqn:?
  | |- context [rest ?r ?c] => destruct (rest r c) as [[]|?] eqn:?
  | |- context [Config.labelWhenClosed inputs] =>
      destruct (Config.labelWhenClosed inputs) as [?label|] eqn:?
  | |- context [JsString.truthy ?l && ?c] => destruct (JsString.truthy l && c) eqn:?
  end; simpl.

Ltac enforce_cases inputs := branch_unfold; repeat step_case inputs.

Lemma enforce_ends (r : Remote) inputs actionType owner repo n vars :
  ∀ u, snd (enforce r inputs actionType owner repo n vars) ≠ Next u.
Proof. intros u. enforce_cases inputs; done. Qed.

Lemma decideAction_trace (h : Host) inputs pr author counts :
  let effective :=
    effectiveOpen (Graphql.openCount counts) (Config.countDrafts inputs) (draft pr) in
  let allowed :=
    Config.allowedOpenFromPolicy (Config.policy inputs) (Graphql.mergedCount counts) in
  catch_all (decideAction h inputs pr author counts)
  = Log Info (Summary author (Graphql.openCount counts) effective
                (Graphql.mergedCount counts) allowed (draft pr) (Config.countDrafts inputs))
    :: SetOutput "openCount" (JsString.of_number effective)
    :: SetOutput "mergedCount" (JsString.of_number (Graphql.mergedCount counts))
    :: SetOutput "allowedOpen" (JsString.of_number allowed)
    :: (if (effective >=? allowed)%Z
        then catch_all
               (enforce (remote h) inputs (payload_action (context h))
                  (repo_owner (context h)) (repo_repo (context h)) (number pr)
                  {| var_author := author; var_openCount := effective;
                     var_allowedOpen := allowed;
                     var_mergedCount := Graphql.mergedCount counts |})
        else [Log Info (WithinLimit (number pr)); SetOutput "decision" "ok"]).
Proof.
  intros effective allowed. unfold decideAction. fold effective allowed.
  destruct (effective >=? allowed)%Z; unfold catch_all; act_unfold; [|done].
  match goal with |- context [enforce ?a ?b ?c ?d ?e ?f ?g] =>
    pose proof (enforce_ends a b c d e f g) as Hends;
    destruct (enforce a b c d e f g) as [tr [u| |msg]]
  end; simpl in *; [by destruct (Hends u) | done | done].
Qed.

(** *** Observations on a trace in parts *)

Lemma outputs_app (name : string) (a b : list Event) :
  outputs name (a ++ b) = outputs name a ++ outputs name b.
Proof. apply omap_app. Qed.

Lemma acted_app (a b : list Event) : acted (a ++ b) = acted a || acted b.
Proof. apply existsb_app. Qed.

Lemma outputs_quiet (name : string) (tr : list Event) :
  effects tr = [] → outputs name tr = [].
Proof. intros H. by rewrite outputs_effects, H. Qed.

Lemma existsb_quiet (p : Event → bool) (tr : list Event) :
  (∀ e, p e = true → is_effect e = true) → effects tr = [] → existsb p tr = false.
Proof. intros Hp H. by rewrite (existsb_effects p tr Hp), H. Qed.

Lemma comment_is_effect e : is_comment e = true → is_effect e = true.
Proof. by destruct e. Qed.

Lemma primary_is_effect e : is_close e || is_revert e = true → is_effect e = true.
Proof. by destruct e. Qed.

Lemma failure_is_effect e : is_failure e = true → is_effect e = true.
Proof. by destruct e. Qed.

Lemma acted_is_effect e : is_comment e || is_close e || is_revert e = true → is_effect e = true.
Proof. by destruct e. Qed.

Lemma entry_next_quiet (h : Host) x : snd (entry h) = Next x → effects (fst (entry h)) = [].
Proof. intros H. pose proof (entry_calm h) as Hc. unfold calm in Hc. by rewrite H in Hc. Qed.

Lemma enforce_observed (r : Remote) inputs actionType owner repo n vars :
  let tr := catch_all (enforce r inputs actionType owner repo n vars) in
  acted tr = true
  ∧ outputs "openCount" tr = [] ∧ outputs "mergedCount" tr = []
  ∧ outputs "allowedOpen" tr = []
  ∧ ((existsb is_failure tr = false
      ∧ (outputs "decision" tr = ["skipped"]
         ∨ outputs "decision" tr = ["reverted_to_draft"]
         ∨ outputs "decision" tr = ["closed"]))
     ∨ (existsb is_failure tr = true ∧ outputs "decision" tr = [])).
Proof. enforce_cases inputs; repeat split; auto. Qed.

Ltac past_gates H :=
  let Hq := fresh "Hq" in
  pose proof (entry_next_quiet _ _ H) as Hq;
  rewrite (run_passed _ _ _ _ _ H), decideAction_trace;
  unfold acted;
  rewrite ?outputs_app, ?existsb_app, ?(outputs_quiet _ _ Hq),
    ?(existsb_quiet _ _ comment_is_effect Hq), ?(existsb_quiet _ _ primary_is_effect Hq),
    ?(existsb_quiet _ _ failure_is_effect Hq), ?(existsb_quiet _ _ acted_is_effect Hq);
  cbn [app orb].

(** *** The decision *)

(** C2. Once every entry gate is passed, the decision is [ok] exactly when the
    effective open count is below the allowed count, and a comment, close or
    revert request is made, which is how an enforcement branch shows,
    exactly when the effective open count is at or above the allowed count. *)
Theorem decision_ok_iff_below_limit (h : Host) inputs pr author counts :
  snd (entry h) = Next (inputs, pr, author, counts) →
  let effective :=
    effectiveOpen (Graphql.openCount counts) (Config.countDrafts inputs) (draft pr) in
  let allowed :=
    Config.allowedOpenFromPolicy (Config.policy inputs) (Graphql.mergedCount counts) in
  (outputs "decision" (run h) = ["ok"] ↔ (effective < allowed)%Z)
  ∧ (acted (run h) = true ↔ (effective >= allowed)%Z).
Proof.
  intros H effective allowed. past_gates H. fold effective allowed.
  destruct (Z.geb_spec effective allowed) as [Hge|Hlt].
  - match goal with |- context [enforce ?a ?b ?c ?d ?e ?f ?g] =>
      destruct (enforce_observed a b c d e f g) as (Hacted & _ & _ & _ & Hd)
    end.
    unfold acted in Hacted. simpl. rewrite Hacted.
    split; split; try done; try lia.
    intros Hok.
    destruct Hd as [[_ [Hd|[Hd|Hd]]]|[_ Hd]]; rewrite Hd in Hok; discriminate.
  - simpl. split; split; try done; lia.
Qed.

(** Two open pull requests, one allowed: the run acts and is not [ok]. *)
Lemma decision_ok_iff_below_limit_witness :
  (outputs "decision" (run Scenario.at_limit_host) = ["ok"] ↔ (1 < 1)%Z)
  ∧ (acted (run Scenario.at_limit_host) = true ↔ (1 >= 1)%Z).
Proof.
  apply (decision_ok_iff_below_limit Scenario.at_limit_host
           (Scenario.inputs Scenario.one_open_policy true true []) (Scenario.pull false)
           "alice" {| Graphql.openCount := 2; Graphql.mergedCount := 0 |}).
  vm_compute. reflexivity.
Defined.

(** C8, amended. On a run that does not fail, the output [decision] is set
    exactly once. The outputs [openCount], [allowedOpen] and [mergedCount]
    are each set exactly once, to the effective count, the resolved
    threshold and the fetched merged count, when the run passed every entry
    gate; on a run that ends at an entry gate they are not set. *)
Theorem outputs_set_once (h : Host) :
  existsb is_failure (run h) = false →
  (∃ d, outputs "decision" (run h) = [d])
  ∧ match snd (entry h) with
    | Next (inputs, pr, author, counts) =>
        let effective :=
          effectiveOpen (Graphql.openCount counts) (Config.countDrafts inputs) (draft pr) in
        let allowed :=
          Config.allowedOpenFromPolicy (Config.policy inputs) (Graphql.mergedCount counts) in
        outputs "openCount" (run h) = [JsString.of_number effective]
        ∧ outputs "allowedOpen" (run h) = [JsString.of_number allowed]
        ∧ outputs "mergedCount" (run h) = [JsString.of_number (Graphql.mergedCount counts)]
    | _ =>
        outputs "openCount" (run h) = []
        ∧ outputs "allowedOpen" (run h) = []
        ∧ outputs "mergedCount" (run h) = []
    end.
Proof.
  pose proof (entry_calm h) as Hcalm. unfold calm in Hcalm.
  destruct (snd (entry h)) as [[[[inputs pr] author] counts]| |e] eqn:H.
  - past_gates H. simpl.
    match goal with |- context [enforce ?a ?b ?c ?d ?e ?f ?g] =>
      destruct (enforce_observed a b c d e f g) as (_ & Ho & Hm & Ha & Hd)
    end.
    destruct (_ >=? _)%Z; simpl.
    + rewrite Ho, Hm, Ha. intros Hfail.
      destruct Hd as [[_ Hd]|[Hd _]]; [|congruence].
      split; [|done]. destruct Hd as [-> | [-> | ->]]; eauto.
    + eauto.
  - rewrite (run_returned h H). destruct Hcalm as [d Hd].
    rewrite !(outputs_effects _ (fst (entry h))), Hd. simpl. eauto.
  - rewrite (run_thrown h e H), existsb_app. simpl. rewrite orb_true_r. done.
Qed.

(** The same run sets each of the four outputs once. *)
Lemma outputs_set_once_witness :
  (∃ d, outputs "decision" (run Scenario.at_limit_host) = [d])
  ∧ outputs "openCount" (run Scenario.at_limit_host) = ["1"]
  ∧ outputs "allowedOpen" (run Scenario.at_limit_host) = ["1"]
  ∧ outputs "mergedCount" (run Scenario.at_limit_host) = ["0"].
Proof.
  apply (outputs_set_once Scenario.at_limit_host). vm_compute. reflexivity.
Defined.

(** C8, counterexample: on a push event the run ends skipped with the decision
    as its only output. *)
Lemma early_exit_sets_only_decision :
  run Scenario.push_host = [Log Info (EventNotSupported "push"); SetOutput "decision" "skipped"]
  ∧ existsb is_failure (run Scenario.push_host) = false
  ∧ outputs "decision" (run Scenario.push_host) = ["skipped"]
  ∧ outputs "openCount" (run Scenario.push_host) = []
  ∧ outputs "allowedOpen" (run Scenario.push_host) = []
  ∧ outputs "mergedCount" (run Scenario.push_host) = [].
Proof. repeat split; vm_compute; reflexivity. Qed.




(** C4, amended. In an enforcement branch whose comment request is made and
    rejected: with [skipOnFailure] the failure is logged, the decision is
    [skipped] and neither close nor revert is requested; without
    [skipOnFailure] the failure is logged and the close or revert request is
    made. *)
Theorem comment_failure_follows_skipOnFailure (h : Host) inputs pr author counts message :
  snd (entry h) = Next (inputs, pr, author, counts) →
  (effectiveOpen (Graphql.openCount counts) (Config.countDrafts inputs) (draft pr)
   >= Config.allowedOpenFromPolicy (Config.policy inputs) (Graphql.mergedCount counts))%Z →
  (∀ owner repo n body, rest (remote h) (CreateComment owner repo n body) = Err message) →
  existsb is_comment (run h) = true →
  if Config.skipOnFailure inputs
  then outputs "decision" (run h) = ["skipped"]
       ∧ existsb (fun e => is_close e || is_revert e) (run h) = false
       ∧ (Log Warning (CommentFailedSkipping message) ∈ run h
          ∨ Log Warning (BackCommentFailedSkipping message) ∈ run h)
  else existsb (fun e => is_close e || is_revert e) (run h) = true
       ∧ (Log Warning (CommentFailedContinuing message) ∈ run h
          ∨ Log Warning (BackCommentFailedContinuing message) ∈ run h).
Proof.
  intros H Hge Hfail. past_gates H.
  destruct (Z.geb_spec
              (effectiveOpen (Graphql.openCount counts) (Config.countDrafts inputs) (draft pr))
              (Config.allowedOpenFromPolicy (Config.policy inputs)
                 (Graphql.mergedCount counts))) as [_|Hlt]; [|lia].
  branch_unfold.
  repeat first [rewrite !Hfail; simpl | step_case inputs];
    intros Hc; try discriminate Hc; (split; [done|]); try (split; [done|]);
    rewrite !elem_of_app, !elem_of_cons; auto 10.
Qed.

(** Comments rejected, [skipOnFailure] at its default. *)
Lemma comment_failure_follows_skipOnFailure_witness :
  outputs "decision" (run Scenario.comment_rejected_host) = ["skipped"]
  ∧ existsb (fun e => is_close e || is_revert e) (run Scenario.comment_rejected_host) = false
  ∧ (Log Warning (CommentFailedSkipping "Resource not accessible") ∈ run Scenario.comment_rejected_host
     ∨ Log Warning (BackCommentFailedSkipping "Resource not accessible")
       ∈ run Scenario.comment_rejected_host).
Proof.
  apply (comment_failure_follows_skipOnFailure Scenario.comment_rejected_host
           (Scenario.inputs Scenario.one_open_policy true true []) (Scenario.pull false)
           "alice" {| Graphql.openCount := 2; Graphql.mergedCount := 0 |}
           "Resource not accessible").
  - vm_compute. reflexivity.
  - vm_compute. discriminate.
  - reflexivity.
  - vm_compute. reflexivity.
Defined.

(** C4, counterexample: with [skipOnFailure] at its default, a rejected comment
    ends the run [skipped], the pull request neither closed nor reverted. *)
Lemma comment_failure_is_not_always_tolerated :
  Config.parseInputs (source Scenario.comment_rejected_host)
  = Ok (Scenario.inputs Scenario.one_open_policy true true [])
  ∧ run Scenario.comment_rejected_host
    = [CountsQuery "repo:acme/widgets is:pr author:alice is:open"
         "repo:acme/widgets is:pr author:alice is:merged";
       Log Info (Summary "alice" 2 1 0 1 false true);
       SetOutput "openCount" "1";
       SetOutput "mergedCount" "0";
       SetOutput "allowedOpen" "1";
       Rest (CreateComment "acme" "widgets" 7
               (renderTemplate "Hi {author}, limit reached."
                  {| var_author := "alice"; var_openCount := 1;
                     var_allowedOpen := 1; var_mergedCount := 0 |}));
       Log Warning (CommentFailedSkipping "Resource not accessible");
       SetOutput "decision" "skipped"]
  ∧ existsb (fun e => is_close e || is_revert e) (run Scenario.comment_rejected_host) = false.
Proof. repeat split; vm_compute; reflexivity. Qed.

(** *** Gates that end the run *)

(** C7. A run that reaches the draft gate with [countDrafts] off and a draft
    pull request ends with decision [ok], without a count query and without
    a comment, close or revert request. *)
Theorem draft_not_counted_is_ok (h : Host) inputs pr author :
  snd (preamble h) = Next (inputs, pr, author) →
  snd (teamsGate h inputs author) = Next tt →
  Config.countDrafts inputs = false →
  draft pr = true →
  outputs "decision" (run h) = ["ok"]
  ∧ existsb is_counts_query (run h) = false
  ∧ acted (run h) = false.
Proof.
  intros Hpre Hteams Hcd Hdraft.
  assert (Hentry : entry h
                   = (fst (teamsGate h inputs author)
                      ++ [Log Info (DraftNotCounted (number pr)); SetOutput "decision" "ok"],
                      Returned)).
  { unfold entry. rewrite bind_unfold, (preamble_next h _ Hpre). cbv beta iota.
    cbn [fst snd app]. rewrite bind_unfold, Hteams.
    unfold draftGate. rewrite Hcd, Hdraft. by act_unfold. }
  assert (Hrun : run h = fst (entry h)) by (apply run_returned; by rewrite Hentry).
  rewrite Hrun, Hentry. cbn [fst].
  assert (Hquiet : effects (fst (teamsGate h inputs author)) = []
                   ∧ existsb is_counts_query (fst (teamsGate h inputs author)) = false).
  { destruct (teamsGate_cases h inputs author) as (tr & He & Hc & [Heq | Heq]);
      rewrite Heq in Hteams |- *; [done | discriminate Hteams]. }
  destruct Hquiet as [He Hc].
  unfold acted.
  rewrite outputs_app, !existsb_app, (outputs_quiet _ _ He), Hc,
    (existsb_quiet _ _ acted_is_effect He).
  done.
Qed.

(** A draft opened while drafts do not count. *)
Lemma draft_not_counted_is_ok_witness :
  outputs "decision" (run Scenario.draft_host) = ["ok"]
  ∧ existsb is_counts_query (run Scenario.draft_host) = false
  ∧ acted (run Scenario.draft_host) = false.
Proof.
  apply (draft_not_counted_is_ok Scenario.draft_host
           (Scenario.inputs Scenario.one_open_policy false true []) (Scenario.pull true)
           "alice");
    vm_compute; reflexivity.
Defined.

(** C6. When the scan of the configured teams reaches a team whose membership
    query fails: with [skipOnFailure] the scan stops and reports the author
    as excluded, and the run ends [skipped] without a comment, close or
    revert request; without [skipOnFailure] the failure is logged as a
    warning, the scan goes on with the teams that follow and reports what
    they yield, and the team gate does not throw. *)
Theorem team_check_failure (h : Host) inputs pr author pre slug post parsed message :
  snd (preamble h) = Next (inputs, pr, author) →
  Config.excludeTeams inputs = pre ++ slug :: post →
  snd (Exclusions.isUserExcludedByTeams (remote h) pre author (Config.skipOnFailure inputs))
  = false →
  Exclusions.parseTeamSlug slug = Some parsed →
  getMembershipForUserInOrg (remote h) (Exclusions.org parsed) (Exclusions.team parsed) author
  = MembershipError message →
  let scan teams :=
    Exclusions.isUserExcludedByTeams (remote h) teams author (Config.skipOnFailure inputs) in
  let query := MembershipQuery (Exclusions.org parsed) (Exclusions.team parsed) author in
  if Config.skipOnFailure inputs
  then scan (Config.excludeTeams inputs)
       = (fst (scan pre)
          ++ [query;
              Log Warning
                (MembershipFailedSkipping (Exclusions.org parsed) (Exclusions.team parsed)
                   author message)],
          true)
       ∧ outputs "decision" (run h) = ["skipped"]
       ∧ acted (run h) = false
  else scan (Config.excludeTeams inputs)
       = (fst (scan pre)
          ++ query
             :: Log Warning
                  (MembershipFailedContinuing (Exclusions.org parsed)
                     (Exclusions.team parsed) author message)
             :: fst (scan post),
          snd (scan post))
       ∧ ∀ e, snd (teamsGate h inputs author) ≠ Thrown e.
Proof.
  intros Hpre Hteams Hscan Hparse Hfail scan query.
  assert (Hall : scan (Config.excludeTeams inputs)
                 = (fst (scan pre) ++ fst (scan (slug :: post)), snd (scan (slug :: post)))).
  { unfold scan. rewrite Hteams. by apply scan_app. }
  unfold scan at 3 4 in Hall. simpl in Hall. rewrite Hparse, Hfail in Hall.
  destruct (Config.skipOnFailure inputs) eqn:Hskip; simpl in Hall.
  2: { split; [exact Hall|]. intros e.
       destruct (teamsGate_cases h inputs author) as (tr & _ & _ & [-> | ->]); done. }
  split; [exact Hall|].
  assert (Hentry : entry h
                   = (fst (scan pre)
                      ++ [query;
                          Log Warning
                            (MembershipFailedSkipping (Exclusions.org parsed)
                               (Exclusions.team parsed) author message);
                          Log Info (AuthorExcludedByTeams author);
                          SetOutput "decision" "skipped"],
                      Returned)).
  { unfold entry. rewrite bind_unfold, (preamble_next h _ Hpre). cbv beta iota.
    cbn [fst snd app]. rewrite bind_unfold.
    unfold teamsGate.
    assert (Hlen : (0 <? length (Config.excludeTeams inputs))%nat = true).
    { rewrite Hteams, length_app. simpl. apply Nat.ltb_lt. lia. }
    rewrite Hlen. unfold when at 1. rewrite bind_unfold. unfold ran.
    rewrite Hskip. unfold scan in Hall. rewrite Hall.
    act_unfold. by rewrite <- app_assoc. }
  assert (Hrun : run h = fst (entry h)) by (apply run_returned; by rewrite Hentry).
  rewrite Hrun, Hentry. cbn [fst].
  pose proof (scan_effects (remote h) pre author (Config.skipOnFailure inputs)) as He.
  rewrite Hskip in He.
  unfold acted, scan.
  rewrite outputs_app, !existsb_app, (outputs_quiet _ _ He),
    (existsb_quiet _ _ acted_is_effect He).
  done.
Qed.

(** Two teams configured, the first query rejected, [skipOnFailure] at its
    default. *)
Lemma team_check_failure_witness :
  Exclusions.isUserExcludedByTeams (remote Scenario.teams_host)
    ["acme/maintainers"; "acme/admins"] "alice" true
  = ([MembershipQuery "acme" "maintainers" "alice";
      Log Warning (MembershipFailedSkipping "acme" "maintainers" "alice" "Forbidden")],
     true)
  ∧ outputs "decision" (run Scenario.teams_host) = ["skipped"]
  ∧ acted (run Scenario.teams_host) = false.
Proof.
  apply (team_check_failure Scenario.teams_host
           (Scenario.inputs Scenario.one_open_policy true true
              ["acme/maintainers"; "acme/admins"])
           (Scenario.pull false) "alice" [] "acme/maintainers" ["acme/admins"]
           {| Exclusions.org := "acme"; Exclusions.team := "maintainers" |} "Forbidden");
    vm_compute; reflexivity.
Defined.

(** ** Validation of the policy input *)

Lemma check_rules_accepts (idx : nat) (items : list json) (rules : list Config.PolicyRule) :
  Forall2 (fun item rule =>
             ∃ fields, item = JObj fields
               ∧ Json.is_number (Json.get_field "minMerged" fields)
                 = Some (Config.minMerged rule)
               ∧ Json.is_number (Json.get_field "allowedOpen" fields)
                 = Some (Config.allowedOpen rule)) items rules →
  Config.check_rules idx items = Ok rules.
Proof.
  intros H. revert idx. induction H as [|item rule items rules Hitem _ IH]; intros idx.
  - done.
  - destruct Hitem as (fields & -> & Hm & Ha). simpl.
    rewrite Ha, Hm. simpl. rewrite IH. simpl. by destruct rule.
Qed.

Lemma check_rules_rejects (idx : nat) (items : list json) (item : json) :
  item ∈ items →
  (∀ fields, item = JObj fields →
     Json.is_number (Json.get_field "allowedOpen" fields) = None
     ∨ Json.is_number (Json.get_field "minMerged" fields) = None) →
  ∃ message, Config.check_rules idx items = Err message.
Proof.
  intros Hin Hbad. revert idx.
  induction items as [|first rest IH]; intros idx; [by apply elem_of_nil in Hin|].
  simpl. destruct (Config.check_rule idx first) as [rule|e] eqn:Hfirst; simpl; [|eauto].
  apply elem_of_cons in Hin as [->|Hin].
  - exfalso. destruct first; try discriminate.
    simpl in Hfirst. destruct (Hbad _ eq_refl) as [H|H]; rewrite H in Hfirst.
    + discriminate.
    + by destruct (Json.is_number (Json.get_field "allowedOpen" fields)).
  - destruct (IH Hin (S idx)) as [message ->]. simpl. eauto.
Qed.

Lemma run_config_error (h : Host) (message : string) :
  Config.parseInputs (source h) = Err message → run h = [SetFailed message].
Proof.
  intros H. unfold run, run_body, entry, preamble. rewrite H. reflexivity.
Qed.

(** C9, amended. With the policy input supplied: when [JSON.parse] throws,
    or yields a value that is not an array, or yields an array with an
    element that is not an object with numeric [allowedOpen] and [minMerged],
    [parseInputs] throws and the run fails with that message and nothing
    else. An array of objects with numeric fields is accepted as it is,
    whatever its length and the sign of its numbers. *)
Theorem policy_validation (h : Host) (policyInput : string) :
  Config.getInput (source h) "policy" true = Ok policyInput →
  let parsed := Config.JSON_parse (source h) (JsString.trim policyInput) in
  (((∃ e, parsed = Err e)
    ∨ (∃ v, parsed = Ok v ∧ ∀ items, v ≠ JArr items)
    ∨ (∃ items item,
         parsed = Ok (JArr items) ∧ item ∈ items
         ∧ ∀ fields, item = JObj fields →
             Json.is_number (Json.get_field "allowedOpen" fields) = None
             ∨ Json.is_number (Json.get_field "minMerged" fields) = None)) →
   ∃ message, Config.parseInputs (source h) = Err message ∧ run h = [SetFailed message])
  ∧ (∀ items rules,
       parsed = Ok (JArr items) →
       Forall2 (fun item rule =>
                  ∃ fields, item = JObj fields
                    ∧ Json.is_number (Json.get_field "minMerged" fields)
                      = Some (Config.minMerged rule)
                    ∧ Json.is_number (Json.get_field "allowedOpen" fields)
                      = Some (Config.allowedOpen rule)) items rules →
       Config.parsePolicy (source h) (JsString.trim policyInput) = Ok rules
       ∧ ∀ closeComment,
           Config.getInput (source h) "closeComment" true = Ok closeComment →
           ∃ inputs, Config.parseInputs (source h) = Ok inputs
                     ∧ Config.policy inputs = rules).
Proof.
  intros Hinput parsed. split.
  - intros Hbad.
    assert (∃ message, Config.parsePolicy (source h) (JsString.trim policyInput)
                       = Err message) as [message Hmsg].
    { unfold Config.parsePolicy. fold parsed.
      destruct Hbad as [[e ->]|[(v & -> & Hv)|(items & item & -> & Hin & Hitem)]]; simpl.
      - eauto.
      - destruct v; simpl; eauto. by destruct (Hv items).
      - destruct (check_rules_rejects 0 items item Hin Hitem) as [m ->]. eauto. }
    exists message.
    assert (Config.parseInputs (source h) = Err message) as Herr.
    { unfold Config.parseInputs. rewrite Hinput. simpl. by rewrite Hmsg. }
    split; [exact Herr | by apply run_config_error].
  - intros items rules Hparsed Hrules.
    assert (Config.parsePolicy (source h) (JsString.trim policyInput) = Ok rules) as Hok.
    { unfold Config.parsePolicy. fold parsed. rewrite Hparsed. simpl.
      by rewrite (check_rules_accepts 0 items rules Hrules). }
    split; [exact Hok|].
    intros closeComment Hclose. unfold Config.parseInputs.
    rewrite Hinput. simpl. rewrite Hok. simpl. rewrite Hclose. simpl. eauto.
Qed.

(** A policy of negative numbers is taken as it is. *)
Lemma policy_validation_witness :
  Config.parsePolicy (source Scenario.negative_policy_host) Scenario.negative_policy_text
  = Ok [ {| Config.minMerged := -1; Config.allowedOpen := -2 |} ]
  ∧ ∀ closeComment,
      Config.getInput (source Scenario.negative_policy_host) "closeComment" true = Ok closeComment →
      ∃ inputs, Config.parseInputs (source Scenario.negative_policy_host) = Ok inputs
                ∧ Config.policy inputs = [ {| Config.minMerged := -1; Config.allowedOpen := -2 |} ].
Proof.
  apply (policy_validation Scenario.negative_policy_host Scenario.negative_policy_text)
    with (items := [Scenario.rule_json (-1) (-2)]).
  - vm_compute. reflexivity.
  - vm_compute. reflexivity.
  - repeat constructor. eexists. repeat split.
Defined.

(** C9, counterexample: the empty policy and a policy of negative numbers are
    both accepted, and the run goes on to a decision. *)
Lemma empty_and_negative_policies_are_accepted :
  (Config.JSON_parse (source Scenario.empty_policy_host) Scenario.empty_policy_text = Ok (JArr [])
   ∧ Config.parseInputs (source Scenario.empty_policy_host) = Ok (Scenario.inputs [] true true [])
   ∧ outputs "decision" (run Scenario.empty_policy_host) = ["ok"]
   ∧ existsb is_failure (run Scenario.empty_policy_host) = false)
  ∧ (Config.JSON_parse (source Scenario.negative_policy_host) Scenario.negative_policy_text
     = Ok (JArr [JObj [("minMerged", JNum (-1)); ("allowedOpen", JNum (-2))]])
     ∧ Config.parseInputs (source Scenario.negative_policy_host)
       = Ok (Scenario.inputs [ {| Config.minMerged := -1; Config.allowedOpen := -2 |} ]
               true true [])
     ∧ outputs "decision" (run Scenario.negative_policy_host) = ["closed"]
     ∧ existsb is_failure (run Scenario.negative_policy_host) = false).
Proof. repeat split; vm_compute; reflexivity. Qed.

(** * Further properties

    Properties of the same code beyond the claims above: the policy table as
    a step function, what the inputs parse to, the exclusion checks, the
    rendering of comments, and what a run does whatever the host. *)

Import Observe.

(** ** The policy table as a function of the merged count *)

Section PolicyResolution.
Import Config.

Lemma allowedOpenFromPolicy_nonempty (P : list PolicyRule) (m : Z) :
  P ≠ [] →
  ∃ first rest,
    Array_sort byMinMerged P = first :: rest
    ∧ allowedOpenFromPolicy P m = allowedOpen (select_rule m first (first :: rest)).
Proof.
  intros Hne. pose proof (Array_sort_perm P) as Hperm.
  destruct (Array_sort byMinMerged P) as [|first rest] eqn:Hsorted.
  { apply Permutation_nil_l in Hperm. by subst. }
  exists first, rest. split; [done|].
  unfold allowedOpenFromPolicy. rewrite Hsorted. by destruct P.
Qed.

Lemma allowedOpenFromPolicy_selects (P : list PolicyRule) (m : Z) :
  P ≠ [] →
  ∃ r, r ∈ P
    ∧ allowedOpenFromPolicy P m = allowedOpen r
    ∧ (((minMerged r <= m)%Z
        ∧ ∀ r', r' ∈ P → (minMerged r' <= m)%Z → (minMerged r' <= minMerged r)%Z)
       ∨ ((∀ r', r' ∈ P → (m < minMerged r')%Z)
          ∧ ∀ r', r' ∈ P → (minMerged r <= minMerged r')%Z)).
Proof.
  intros Hne.
  destruct (allowedOpenFromPolicy_nonempty P m Hne) as (first & rest & Hsorted & ->).
  pose proof (Array_sort_perm P) as Hperm.
  pose proof (Array_sort_ascending P) as Hasc.
  rewrite Hsorted in Hperm, Hasc. unfold ascending in Hasc.
  destruct (select_rule_split m (first :: rest) first)
    as (pre & post & Hsplit & Hpre & Hpost & ->).
  assert (Hfirst : ∀ r', r' ∈ P → (minMerged first <= minMerged r')%Z).
  { intros r' Hin. rewrite <- Hperm in Hin.
    apply elem_of_cons in Hin as [->|Hin]; [lia|].
    apply StronglySorted_inv in Hasc as [_ Hf].
    rewrite Forall_forall in Hf. by apply Hf. }
  destruct (decide (pre = [])) as [->|Hpre_ne].
  - simpl in *. subst post. exists first.
    split; [rewrite <- Hperm; left|]. split; [done|]. right. split; [|done].
    intros r' Hin. specialize (Hfirst _ Hin). lia.
  - destruct (exists_last Hpre_ne) as (pre0 & r & ->).
    rewrite List.last_last.
    rewrite <- app_assoc in Hsplit. simpl in Hsplit.
    apply Forall_app in Hpre as [_ Hr]. rewrite Forall_singleton in Hr.
    rewrite Hsplit in Hasc, Hperm.
    exists r. split; [rewrite <- Hperm; apply elem_of_app; right; left|].
    split; [done|]. left. split; [done|].
    intros r' Hin Hle. rewrite <- Hperm in Hin.
    apply elem_of_app in Hin as [Hin|Hin].
    + apply (StronglySorted_app_1_elem_of _ _ _ r' r Hasc Hin). left.
    + apply elem_of_cons in Hin as [->|Hin]; [lia|].
      exfalso.
      pose proof (StronglySorted_app_1_r _ _ _ Hasc) as Hasc_r.
      apply StronglySorted_inv in Hasc_r as [Hpost_sorted _].
      destruct post as [|p post']; [by apply elem_of_nil in Hin|].
      apply elem_of_cons in Hin as [->|Hin]; [lia|].
      apply StronglySorted_inv in Hpost_sorted as [_ Hp].
      rewrite Forall_forall in Hp. specialize (Hp _ Hin). simpl in Hp. lia.
Qed.

(** X1. The allowed count is 1 for the empty policy and otherwise the
    [allowedOpen] of one of the rules of the policy: no other value comes
    out. *)
Theorem allowedOpenFromPolicy_is_a_rule (P : list PolicyRule) (m : Z) :
  (P = [] ∧ allowedOpenFromPolicy P m = 1%Z)
  ∨ ∃ r, r ∈ P ∧ allowedOpenFromPolicy P m = allowedOpen r.
Proof.
  destruct P as [|r0 P]; [by left|]. right.
  destruct (allowedOpenFromPolicy_selects (r0 :: P) m) as (r & Hin & Hval & _); eauto.
Qed.

(** X2. If, across the rules of the policy, [allowedOpen] does not decrease
    as [minMerged] grows, the allowed count does not decrease as the merged
    count grows. *)
Theorem allowedOpenFromPolicy_monotone (P : list PolicyRule) (m m' : Z) :
  (∀ r r', r ∈ P → r' ∈ P → (minMerged r <= minMerged r')%Z →
           (allowedOpen r <= allowedOpen r')%Z) →
  (m <= m')%Z →
  (allowedOpenFromPolicy P m <= allowedOpenFromPolicy P m')%Z.
Proof.
  intros Hmono Hle. destruct P as [|r0 P]; [done|].
  destruct (allowedOpenFromPolicy_selects (r0 :: P) m) as (r & Hin & -> & Hr); [done|].
  destruct (allowedOpenFromPolicy_selects (r0 :: P) m') as (r' & Hin' & -> & Hr'); [done|].
  apply Hmono; [done | done |].
  destruct Hr as [[Hrm _]|[_ Hmin]]; [|by apply Hmin].
  destruct Hr' as [[_ Hmax]|[Habove _]].
  - apply Hmax; [done | lia].
  - specialize (Habove _ Hin). lia.
Qed.

Lemma select_rule_same_tests (m m' : Z) (sel : PolicyRule) (s : list PolicyRule) :
  Forall (fun r => (minMerged r <= m)%Z ↔ (minMerged r <= m')%Z) s →
  select_rule m sel s = select_rule m' sel s.
Proof.
  intros H. revert sel. induction H as [|r s Hr _ IH]; intros sel; [done|].
  simpl. destruct (Z.geb_spec m (minMerged r)), (Z.geb_spec m' (minMerged r));
    try done; lia.
Qed.

(** X3. Between two thresholds the allowed count is constant: if no rule has
    its [minMerged] above [m] and at or below [m'], both merged counts
    resolve to the same value. *)
Theorem allowedOpenFromPolicy_constant_between_thresholds (P : list PolicyRule) (m m' : Z) :
  (m <= m')%Z →
  (∀ r, r ∈ P → ¬ (m < minMerged r <= m')%Z) →
  allowedOpenFromPolicy P m = allowedOpenFromPolicy P m'.
Proof.
  intros Hle Hgap. destruct P as [|r0 P]; [done|].
  destruct (allowedOpenFromPolicy_nonempty (r0 :: P) m) as (first & rest & Hs & ->); [done|].
  destruct (allowedOpenFromPolicy_nonempty (r0 :: P) m') as (first' & rest' & Hs' & ->);
    [done|].
  rewrite Hs in Hs'. injection Hs' as <- <-.
  f_equal. apply select_rule_same_tests.
  apply Forall_forall. intros r Hin.
  assert (Hin' : r ∈ r0 :: P) by (rewrite <- (Array_sort_perm (r0 :: P)), Hs; done).
  specialize (Hgap _ Hin'). lia.
Qed.

Lemma filter_key_at_most_one (k : Z) (P : list PolicyRule) :
  NoDup (map minMerged P) →
  (length (filter (fun r => minMerged r = k) P) <= 1)%nat.
Proof.
  induction P as [|r P IH]; simpl; [lia|].
  intros Hnd. apply NoDup_cons in Hnd as [Hr Hnd]. specialize (IH Hnd).
  rewrite filter_cons. case_decide as Hk; simpl; [|lia].
  destruct (filter (fun r => minMerged r = k) P) as [|r' l] eqn:Hf; simpl; [lia|].
  exfalso. apply Hr.
  assert (Hin : r' ∈ filter (fun r => minMerged r = k) P) by (rewrite Hf; left).
  apply list_elem_of_filter in Hin as [Hk' Hin].
  apply list_elem_of_fmap. exists r'. split; [congruence | done].
Qed.

(** X4. The order in which rules with distinct [minMerged] are written does
    not matter: a rearranged policy resolves every merged count alike. *)
Theorem allowedOpenFromPolicy_order_independent (P P' : list PolicyRule) (m : Z) :
  P ≡ₚ P' →
  NoDup (map minMerged P) →
  allowedOpenFromPolicy P m = allowedOpenFromPolicy P' m.
Proof.
  intros Hperm Hnd.
  assert (Hsort : Array_sort byMinMerged P' = Array_sort byMinMerged P).
  { apply Array_sort_unique; [apply Array_sort_ascending|].
    intros k. rewrite Array_sort_stable.
    pose proof (filter_key_at_most_one k P Hnd) as Hlen.
    assert (Hf : filter (fun r => minMerged r = k) P'
                 ≡ₚ filter (fun r => minMerged r = k) P) by (by rewrite Hperm).
    destruct (filter (fun r => minMerged r = k) P) as [|a [|b l]];
      [by apply Permutation_nil_r in Hf
      | by apply Permutation_singleton_r in Hf
      | simpl in Hlen; lia]. }
  unfold allowedOpenFromPolicy. rewrite Hsort.
  by rewrite (Permutation_length Hperm).
Qed.

End PolicyResolution.

(** The README policy: from 1 to 3 merged, reversed, and between 1 and 2. *)
Lemma allowedOpenFromPolicy_monotone_witness :
  (Config.allowedOpenFromPolicy Scenario.readme_policy 1
   <= Config.allowedOpenFromPolicy Scenario.readme_policy 3)%Z.
Proof.
  apply (allowedOpenFromPolicy_monotone Scenario.readme_policy 1 3); [|lia].
  intros r r' Hr Hr'.
  repeat (apply elem_of_cons in Hr as [->|Hr]); try (by apply elem_of_nil in Hr);
    repeat (apply elem_of_cons in Hr' as [->|Hr']); try (by apply elem_of_nil in Hr');
    simpl; lia.
Defined.

Lemma allowedOpenFromPolicy_order_independent_witness :
  Config.allowedOpenFromPolicy Scenario.readme_policy 2
  = Config.allowedOpenFromPolicy (reverse Scenario.readme_policy) 2.
Proof.
  apply (allowedOpenFromPolicy_order_independent Scenario.readme_policy).
  - symmetry. apply reverse_Permutation.
  - simpl. repeat (apply NoDup_cons; split; [rewrite ?elem_of_cons, elem_of_nil; lia|]).
    apply NoDup_nil. done.
Defined.

Lemma allowedOpenFromPolicy_constant_between_thresholds_witness :
  Config.allowedOpenFromPolicy Scenario.readme_policy 1
  = Config.allowedOpenFromPolicy Scenario.readme_policy 2.
Proof.
  apply (allowedOpenFromPolicy_constant_between_thresholds Scenario.readme_policy 1 2);
    [lia|].
  intros r Hr.
  repeat (apply elem_of_cons in Hr as [->|Hr]); try (by apply elem_of_nil in Hr);
    simpl; lia.
Defined.

(** ** Trimming and splitting *)

Lemma trimEnd_idemp (s : string) : JsString.trimEnd (JsString.trimEnd s) = JsString.trimEnd s.
Proof.
  induction s as [|c s IH]; [done|].
  simpl. destruct (JsString.trimEnd s) as [|c' t] eqn:Ht.
  - destruct (JsString.is_white_space c) eqn:Hc; [done|]. simpl. by rewrite Hc.
  - change (JsString.trimEnd (String c (String c' t)))
      with (match JsString.trimEnd (String c' t) with
            | EmptyString =>
                if JsString.is_white_space c then EmptyString else String c EmptyString
            | t' => String c t'
            end).
    by rewrite IH.
Qed.

Lemma trimStart_head (s : string) :
  JsString.trimStart s = EmptyString
  ∨ ∃ c t, JsString.trimStart s = String c t ∧ JsString.is_white_space c = false.
Proof.
  induction s as [|c s IH]; [by left|].
  simpl. destruct (JsString.is_white_space c) eqn:Hc; [done|]. right. eauto.
Qed.

Lemma trimEnd_head (c : ascii) (t : string) :
  JsString.is_white_space c = false →
  ∃ t', JsString.trimEnd (String c t) = String c t'.
Proof.
  intros Hc. simpl. destruct (JsString.trimEnd t); [|eauto].
  rewrite Hc. eauto.
Qed.

Lemma trim_idemp (s : string) : JsString.trim (JsString.trim s) = JsString.trim s.
Proof.
  unfold JsString.trim.
  destruct (trimStart_head s) as [->|(c & t & -> & Hc)]; [done|].
  destruct (trimEnd_head c t Hc) as [t' Ht']. rewrite Ht'.
  simpl JsString.trimStart. rewrite Hc. rewrite <- Ht'. apply trimEnd_idemp.
Qed.

Lemma append_cons (c : ascii) (u v : string) : String c u +:+ v = String c (u +:+ v).
Proof. reflexivity. Qed.

Lemma trimEnd_app (u v : string) :
  JsString.trimEnd v ≠ EmptyString →
  JsString.trimEnd (u +:+ v) = u +:+ JsString.trimEnd v.
Proof.
  intros Hv. induction u as [|c u IH]; [done|].
  rewrite !append_cons. simpl. rewrite IH.
  destruct (u +:+ JsString.trimEnd v) eqn:Huv; [|done].
  destruct u; [by destruct Hv | by rewrite append_cons in Huv].
Qed.

Lemma split_free (sep : ascii) (a : string) :
  free_of sep a = true → JsString.split sep a = [a].
Proof.
  induction a as [|c a IH]; [done|].
  simpl. destruct (Ascii.eqb c sep); [done|]. simpl. intros H. by rewrite (IH H).
Qed.

Lemma split_app (sep : ascii) (a rest : string) :
  free_of sep a = true →
  JsString.split sep (a +:+ String sep rest) = a :: JsString.split sep rest.
Proof.
  induction a as [|c a IH]; intros H.
  - change (EmptyString +:+ String sep rest) with (String sep rest).
    simpl. by rewrite Ascii.eqb_refl.
  - rewrite append_cons. simpl in H |- *.
    destruct (Ascii.eqb c sep) eqn:Hc; [done|]. by rewrite (IH H).
Qed.

Lemma split_separated (sep : ascii) (names : list string) :
  names ≠ [] →
  Forall (fun n => free_of sep n = true) names →
  JsString.split sep (separated sep names) = names.
Proof.
  intros Hne H. induction H as [|n rest Hn Hrest IH]; [done|].
  destruct rest as [|n' rest]; [by apply split_free|].
  change (separated sep (n :: n' :: rest))
    with (n +:+ String sep (separated sep (n' :: rest))).
  rewrite (split_app sep n _ Hn). f_equal. by apply IH.
Qed.

Lemma trimStart_length (s : string) :
  (String.length (JsString.trimStart s) <= String.length s)%nat.
Proof.
  induction s as [|c s IH]; simpl; [lia|].
  destruct (JsString.is_white_space c); simpl; lia.
Qed.

Lemma trimEnd_length (s : string) :
  (String.length (JsString.trimEnd s) <= String.length s)%nat.
Proof.
  induction s as [|c s IH]; simpl; [lia|].
  destruct (JsString.trimEnd s); [destruct (JsString.is_white_space c)|];
    simpl in *; lia.
Qed.

Lemma trim_fixed_start (s : string) : JsString.trim s = s → JsString.trimStart s = s.
Proof.
  intros H. destruct s as [|c s]; [done|].
  simpl. destruct (JsString.is_white_space c) eqn:Hc; [|done]. exfalso.
  pose proof (trimEnd_length (JsString.trimStart (String c s))) as H1.
  fold (JsString.trim (String c s)) in H1. rewrite H in H1.
  simpl in H1. rewrite Hc in H1.
  pose proof (trimStart_length s). lia.
Qed.

Lemma trim_fixed_end (s : string) : JsString.trim s = s → JsString.trimEnd s = s.
Proof.
  intros H. pose proof (trim_fixed_start s H) as Hs.
  unfold JsString.trim in H. by rewrite Hs in H.
Qed.

Lemma trimStart_app (a b : string) :
  a ≠ EmptyString → JsString.trimStart a = a → JsString.trimStart (a +:+ b) = a +:+ b.
Proof.
  intros Hne H. destruct a as [|c a]; [done|].
  rewrite append_cons. simpl in *.
  destruct (JsString.is_white_space c); [|done]. exfalso.
  pose proof (trimStart_length a) as Hl. rewrite H in Hl. simpl in Hl. lia.
Qed.

Lemma separated_last (sep : ascii) (names : list string) :
  names ≠ [] →
  ∃ prefix n, n ∈ names ∧ separated sep names = prefix +:+ n.
Proof.
  induction names as [|n rest IH]; [done|]. intros _.
  destruct rest as [|n' rest].
  - exists EmptyString, n. split; [left | done].
  - destruct IH as (prefix & l & Hin & Heq); [done|].
    exists (n +:+ String sep prefix), l. split; [by right|].
    change (separated sep (n :: n' :: rest))
      with (n +:+ String sep (separated sep (n' :: rest))).
    rewrite Heq. clear. induction n as [|c n IHn]; [done|].
    rewrite !append_cons. by rewrite IHn.
Qed.

Lemma separated_trim (sep : ascii) (names : list string) :
  Forall (fun n => n ≠ EmptyString ∧ JsString.trim n = n) names →
  JsString.trim (separated sep names) = separated sep names.
Proof.
  intros H. destruct names as [|n rest]; [done|].
  assert (Hstart : JsString.trimStart (separated sep (n :: rest)) = separated sep (n :: rest)).
  { apply Forall_cons in H as [[Hne Hn] _].
    destruct rest; [by apply trim_fixed_start|].
    apply trimStart_app; [done | by apply trim_fixed_start]. }
  unfold JsString.trim. rewrite Hstart.
  destruct (separated_last sep (n :: rest)) as (prefix & l & Hin & ->); [done|].
  rewrite Forall_forall in H. destruct (H _ Hin) as [Hne Hl].
  rewrite trimEnd_app; rewrite (trim_fixed_end l Hl); done.
Qed.

Lemma separated_nonempty (sep : ascii) (names : list string) :
  names ≠ [] →
  Forall (fun n => n ≠ EmptyString) names →
  separated sep names ≠ EmptyString.
Proof.
  intros Hne H. destruct H as [|n rest Hn _]; [done|].
  destruct rest; [done|]. destruct n; done.
Qed.

Lemma tidy_list (names : list string) :
  Forall (fun n => n ≠ EmptyString ∧ JsString.trim n = n) names →
  List.filter JsString.truthy (map JsString.trim names) = names.
Proof.
  induction 1 as [|n rest [Hne Hn] _ IH]; [done|].
  simpl. rewrite Hn, IH.
  unfold JsString.truthy.
  destruct (String.eqb_spec n EmptyString); done.
Qed.

(** ** What the inputs parse to *)

Section ListInputs.
Import Config.


(** X6. A comma-separated text of names that are not empty, have no white
    space at either end and no comma, and that is not itself a JSON array,
    parses to exactly those names, in order. *)
Theorem parseListOrJsonArray_comma_separated (src : InputSource) (names : list string) :
  names ≠ [] →
  Forall (fun n => n ≠ EmptyString ∧ JsString.trim n = n ∧ free_of "," n = true) names →
  (∀ items, JSON_parse src (separated "," names) ≠ Ok (JArr items)) →
  parseListOrJsonArray src (separated "," names) = names.
Proof.
  intros Hne Hnames Hjson.
  assert (Htidy : Forall (fun n => n ≠ EmptyString ∧ JsString.trim n = n) names).
  { eapply Forall_impl; [exact Hnames|]. intros n (? & ? & _). done. }
  assert (Hfree : Forall (fun n => free_of "," n = true) names).
  { eapply Forall_impl; [exact Hnames|]. intros n (_ & _ & ?). done. }
  unfold parseListOrJsonArray.
  rewrite (separated_trim "," names Htidy).
  assert (Htruthy : JsString.truthy (separated "," names) = true).
  { unfold JsString.truthy. destruct (String.eqb_spec (separated "," names) EmptyString) as [He|]; [|done].
    exfalso. revert He. apply separated_nonempty; [done|].
    eapply Forall_impl; [exact Htidy|]. by intros n [? _]. }
  rewrite Htruthy. simpl.
  rewrite (split_separated "," names Hne Hfree).
  change (List.filter nonempty) with (List.filter JsString.truthy).
  rewrite (tidy_list names Htidy).
  destruct (JSON_parse src (separated "," names)) as [[]|] eqn:Hp; try done.
  by destruct (Hjson items).
Qed.

End ListInputs.


Lemma parseListOrJsonArray_comma_separated_witness :
  Config.parseListOrJsonArray (source Scenario.at_limit_host)
    (separated "," ["alice"; "bob"])
  = ["alice"; "bob"].
Proof.
  apply (parseListOrJsonArray_comma_separated (source Scenario.at_limit_host)
           ["alice"; "bob"]).
  - discriminate.
  - repeat constructor; discriminate.
  - intros items. vm_compute. discriminate.
Defined.

Section Inputs.
Import Config.

(** X7. When the policy or the close comment is not supplied, [parseInputs]
    throws and the run fails with that message and nothing else; for a
    missing policy the message names it. *)
Theorem required_inputs (h : Host) :
  raw_input (source h) "policy" = EmptyString
  ∨ raw_input (source h) "closeComment" = EmptyString →
  ∃ message,
    parseInputs (source h) = Err message
    ∧ run h = [SetFailed message]
    ∧ (raw_input (source h) "policy" = EmptyString →
       message = "Input required and not supplied: policy").
Proof.
  intros H.
  assert (∃ message, parseInputs (source h) = Err message
            ∧ (raw_input (source h) "policy" = EmptyString →
               message = "Input required and not supplied: policy"))
    as (message & Herr & Hmsg).
  { unfold parseInputs, getInput.
    destruct (String.eqb_spec (raw_input (source h) "policy") EmptyString) as [Hp|Hp].
    - rewrite Hp. simpl. eauto.
    - destruct H as [H|H]; [done|].
      unfold JsString.truthy at 1.
      destruct (String.eqb_spec (raw_input (source h) "policy") EmptyString); [done|].
      simpl. destruct (parsePolicy _ _); simpl;
        [|eexists; split; [reflexivity | by intros ?]].
      rewrite H. simpl. eexists; split; [reflexivity | by intros ?]. }
  exists message. split; [done|]. split; [|done].
  by apply run_config_error.
Qed.

(** X8. Each of the three flags is on unless its input is supplied and, in
    lower case, differs from [true]: any other text turns the flag off. *)
Theorem flags_default_to_true (src : InputSource) (inputs : Inputs) :
  parseInputs src = Ok inputs →
  let off name :=
    JsString.trim (raw_input src name) ≠ EmptyString
    ∧ JsString.toLowerCase (JsString.trim (raw_input src name)) ≠ "true" in
  (countDrafts inputs = false ↔ off "countDrafts")
  ∧ (skipOnFailure inputs = false ↔ off "skipOnFailure")
  ∧ (revertToDraftOnReady inputs = false ↔ off "revertToDraftOnReady").
Proof.
  intros Hparse off.
  assert (Hflag : ∀ name, getFlag src name = false ↔ off name).
  { intros name. unfold getFlag, getInputOpt, off, JsString.or_undefined, JsString.or_else,
      JsString.truthy.
    destruct (String.eqb_spec (JsString.trim (raw_input src name)) EmptyString) as [->|Hne];
      simpl.
    - split; [done | by intros [? _]].
    - destruct (String.eqb_spec (JsString.toLowerCase (JsString.trim (raw_input src name)))
                  "true"); split; try done. by intros [_ ?]. }
  unfold parseInputs in Hparse.
  destruct (getInput src "policy" true); simpl in Hparse; [|done].
  destruct (parsePolicy src _); simpl in Hparse; [|done].
  destruct (getInput src "closeComment" true); simpl in Hparse; [|done].
  injection Hparse as <-. simpl. auto.
Qed.

(** X9. The token is the first non-empty text among the [token] input, the
    variable GITHUB_TOKEN and the variable TOKEN, and it is never the empty
    text. *)
Theorem token_precedence (src : InputSource) (inputs : Inputs) :
  parseInputs src = Ok inputs →
  token inputs
  = List.find JsString.truthy
      (omap id [Some (JsString.trim (raw_input src "token"));
                env_GITHUB_TOKEN src; env_TOKEN src])
  ∧ token inputs ≠ Some EmptyString.
Proof.
  intros Hparse.
  assert (Hfind : token inputs
                  = List.find JsString.truthy
                      (omap id [Some (JsString.trim (raw_input src "token"));
                                env_GITHUB_TOKEN src; env_TOKEN src])).
  { unfold parseInputs in Hparse.
    destruct (getInput src "policy" true); simpl in Hparse; [|done].
    destruct (parsePolicy src _); simpl in Hparse; [|done].
    destruct (getInput src "closeComment" true); simpl in Hparse; [|done].
    injection Hparse as <-. simpl.
    unfold getInputOpt, JsString.or_undefined, JsString.or_else.
    destruct (JsString.truthy (JsString.trim (raw_input src "token"))) eqn:H1; simpl;
      rewrite ?H1; [done|].
    destruct (env_GITHUB_TOKEN src) as [g|]; simpl.
    - destruct (JsString.truthy g) eqn:H2; simpl; rewrite ?H2; [done|].
      destruct (env_TOKEN src) as [t|]; simpl; [|done].
      by destruct (JsString.truthy t) eqn:H3; simpl; rewrite ?H3.
    - destruct (env_TOKEN src) as [t|]; simpl; [|done].
      by destruct (JsString.truthy t) eqn:H3; simpl; rewrite ?H3. }
  split; [done|]. rewrite Hfind. intros Hempty.
  by apply find_some in Hempty as [_ ?].
Qed.

End Inputs.

(** No input at all; drafts switched off; the token of the environment. *)
Lemma required_inputs_witness :
  ∃ message,
    Config.parseInputs (source Scenario.bare_host) = Err message
    ∧ run Scenario.bare_host = [SetFailed message]
    ∧ (Config.raw_input (source Scenario.bare_host) "policy" = EmptyString →
       message = "Input required and not supplied: policy").
Proof. apply (required_inputs Scenario.bare_host). left. reflexivity. Defined.

Lemma flags_default_to_true_witness :
  let src := source Scenario.draft_host in
  let off name :=
    JsString.trim (Config.raw_input src name) ≠ EmptyString
    ∧ JsString.toLowerCase (JsString.trim (Config.raw_input src name)) ≠ "true" in
  (Config.countDrafts (Scenario.parsed src) = false ↔ off "countDrafts")
  ∧ (Config.skipOnFailure (Scenario.parsed src) = false ↔ off "skipOnFailure")
  ∧ (Config.revertToDraftOnReady (Scenario.parsed src) = false ↔ off "revertToDraftOnReady").
Proof.
  intros src. apply (flags_default_to_true src (Scenario.parsed src)). vm_compute. reflexivity.
Defined.

Lemma token_precedence_witness :
  let src := source Scenario.at_limit_host in
  Config.token (Scenario.parsed src)
  = List.find JsString.truthy
      (omap id [Some (JsString.trim (Config.raw_input src "token"));
                Config.env_GITHUB_TOKEN src; Config.env_TOKEN src])
  ∧ Config.token (Scenario.parsed src) ≠ Some EmptyString.
Proof.
  intros src. apply (token_precedence src (Scenario.parsed src)). vm_compute. reflexivity.
Defined.

Section Policy.
Import Config.

Lemma check_rules_first_invalid (idx : nat) (good : list json) (bad : json) (rest : list json) :
  Forall (fun item =>
            ∃ fields a m, item = JObj fields
              ∧ Json.is_number (Json.get_field "allowedOpen" fields) = Some a
              ∧ Json.is_number (Json.get_field "minMerged" fields) = Some m) good →
  bad ≠ JNull →
  (∀ fields, bad = JObj fields →
     Json.is_number (Json.get_field "allowedOpen" fields) = None
     ∨ Json.is_number (Json.get_field "minMerged" fields) = None) →
  check_rules idx (good ++ bad :: rest)
  = Err ("Invalid policy rule at index "
         +:+ NilZero.string_of_uint (Nat.to_uint (idx + length good))).
Proof.
  intros Hgood Hnull Hbad. revert idx.
  induction Hgood as [|item good (fields & a & m & -> & Ha & Hm) _ IH]; intros idx.
  - simpl. rewrite Nat.add_0_r.
    destruct bad; try done; simpl.
    destruct (Hbad _ eq_refl) as [H|H]; rewrite H; [done|].
    by destruct (Json.is_number (Json.get_field "allowedOpen" fields)).
  - simpl. rewrite Ha, Hm. simpl. rewrite (IH (S idx)). simpl.
    by rewrite Nat.add_succ_r.
Qed.

(** X10. When the elements of the policy array before some element are
    objects with two numeric fields and that element is neither [null] nor
    such an object, the run fails with a message that gives the index of
    that element. *)
Theorem first_invalid_rule_is_reported (h : Host) (policyInput : string)
    (good : list json) (bad : json) (rest : list json) :
  getInput (source h) "policy" true = Ok policyInput →
  JSON_parse (source h) (JsString.trim policyInput) = Ok (JArr (good ++ bad :: rest)) →
  Forall (fun item =>
            ∃ fields a m, item = JObj fields
              ∧ Json.is_number (Json.get_field "allowedOpen" fields) = Some a
              ∧ Json.is_number (Json.get_field "minMerged" fields) = Some m) good →
  bad ≠ JNull →
  (∀ fields, bad = JObj fields →
     Json.is_number (Json.get_field "allowedOpen" fields) = None
     ∨ Json.is_number (Json.get_field "minMerged" fields) = None) →
  run h = [SetFailed ("Failed to parse 'policy' input: Invalid policy rule at index "
                      +:+ NilZero.string_of_uint (Nat.to_uint (length good)))].
Proof.
  intros Hinput Hparse Hgood Hnull Hbad.
  apply run_config_error. unfold parseInputs. rewrite Hinput. simpl.
  unfold parsePolicy. rewrite Hparse. simpl.
  by rewrite (check_rules_first_invalid 0 good bad rest Hgood Hnull Hbad).
Qed.
End Policy.

(** A number in place of the second rule. *)
Lemma first_invalid_rule_is_reported_witness :
  run Scenario.broken_policy_host
  = [SetFailed "Failed to parse 'policy' input: Invalid policy rule at index 1"].
Proof.
  apply (first_invalid_rule_is_reported Scenario.broken_policy_host Scenario.broken_policy_text
           [Scenario.rule_json 0 1] (JNum 7) []).
  - vm_compute. reflexivity.
  - vm_compute. reflexivity.
  - repeat constructor. eexists _, _, _. repeat split.
  - discriminate.
  - intros fields Heq. discriminate Heq.
Defined.

(** ** The exclusion checks *)

Section Slugs.
Import Exclusions.

(** X11. A slug written as an organisation, a slash and a team, both without
    slash and without white space at either end, parses to that
    organisation and that team. *)
Theorem parseTeamSlug_round_trip (o t : string) :
  o ≠ EmptyString → t ≠ EmptyString →
  JsString.trim o = o → JsString.trim t = t →
  free_of "/" o = true → free_of "/" t = true →
  parseTeamSlug (o +:+ "/" +:+ t) = Some {| org := o; team := t |}.
Proof.
  intros Ho Ht Hto Htt Hfo Hft. unfold parseTeamSlug.
  change (o +:+ "/" +:+ t) with (o +:+ String "/" t).
  rewrite (split_app "/" o t Hfo), (split_free "/" t Hft).
  rewrite (tidy_list [o; t]); [done|]. repeat constructor; done.
Qed.

Lemma split_pieces_free (sep : ascii) (s : string) :
  Forall (fun p => free_of sep p = true) (JsString.split sep s).
Proof.
  induction s as [|c s IH]; simpl; [repeat constructor|].
  destruct (Ascii.eqb c sep) eqn:Hc; [by constructor|].
  destruct (JsString.split sep s) as [|p ps]; [repeat constructor; simpl; by rewrite Hc|].
  apply Forall_cons in IH as [Hp Hps]. constructor; [|done].
  simpl. by rewrite Hc, Hp.
Qed.

Lemma trimStart_free (sep : ascii) (s : string) :
  free_of sep s = true → free_of sep (JsString.trimStart s) = true.
Proof.
  induction s as [|c s IH]; [done|]. simpl.
  destruct (JsString.is_white_space c); [|done].
  intros [_ H]%andb_prop. by apply IH.
Qed.

Lemma trimEnd_free (sep : ascii) (s : string) :
  free_of sep s = true → free_of sep (JsString.trimEnd s) = true.
Proof.
  induction s as [|c s IH]; [done|]. simpl.
  intros [Hc H]%andb_prop. specialize (IH H).
  destruct (JsString.trimEnd s).
  - destruct (JsString.is_white_space c); [done|]. simpl. by rewrite Hc.
  - simpl in *. by rewrite Hc, IH.
Qed.

(** X12. Whatever the slug, the organisation and the team of a parsed slug
    are not empty, have no white space at either end and contain no slash. *)
Theorem parseTeamSlug_parts (slug : string) (parsed : TeamSlug) :
  parseTeamSlug slug = Some parsed →
  (org parsed ≠ EmptyString ∧ JsString.trim (org parsed) = org parsed
   ∧ free_of "/" (org parsed) = true)
  ∧ (team parsed ≠ EmptyString ∧ JsString.trim (team parsed) = team parsed
     ∧ free_of "/" (team parsed) = true).
Proof.
  unfold parseTeamSlug.
  assert (Hall : Forall (fun p => p ≠ EmptyString ∧ JsString.trim p = p
                                  ∧ free_of "/" p = true)
                   (List.filter JsString.truthy
                      (map JsString.trim (JsString.split "/" slug)))).
  { apply Forall_forall. intros p Hin.
    apply list_elem_of_In, filter_In in Hin as [Hin Hp].
    apply in_map_iff in Hin as (q & <- & Hq).
    split; [|split].
    - intros Heq. rewrite Heq in Hp. done.
    - apply trim_idemp.
    - apply trimEnd_free, trimStart_free.
      pose proof (split_pieces_free "/" slug) as Hfree.
      rewrite Forall_forall in Hfree. apply Hfree. by apply list_elem_of_In. }
  destruct (List.filter _ _) as [|o [|t [|x l]]]; try done.
  intros [= <-]. simpl.
  apply Forall_cons in Hall as [Ho Hall]. apply Forall_cons in Hall as [Ht _]. done.
Qed.

Lemma lower_char_idemp (c : ascii) :
  JsString.lower_char (JsString.lower_char c) = JsString.lower_char c.
Proof. destruct c as [[] [] [] [] [] [] [] []]; reflexivity. Qed.

Lemma toLowerCase_idemp (s : string) :
  JsString.toLowerCase (JsString.toLowerCase s) = JsString.toLowerCase s.
Proof. induction s as [|c s IH]; [done|]. simpl. by rewrite lower_char_idemp, IH. Qed.

(** X13. A user is on the list exactly when some entry equals the user name
    up to letter case; the case of either side does not matter. *)
Theorem isUserExcludedByList_case_insensitive (excludeUsers : list string) (username : string) :
  (isUserExcludedByList excludeUsers username = true ↔
   ∃ u, u ∈ excludeUsers ∧ JsString.toLowerCase u = JsString.toLowerCase username)
  ∧ isUserExcludedByList (map JsString.toLowerCase excludeUsers)
      (JsString.toLowerCase username)
    = isUserExcludedByList excludeUsers username.
Proof.
  split.
  - unfold isUserExcludedByList. rewrite existsb_exists. split.
    + intros (x & Hin & Hx). apply in_map_iff in Hin as (u & <- & Hu).
      exists u. split; [by apply list_elem_of_In|].
      by apply String.eqb_eq in Hx.
    + intros (u & Hin & Hu). exists (JsString.toLowerCase u).
      split; [apply in_map; by apply list_elem_of_In|].
      apply String.eqb_eq. done.
  - unfold isUserExcludedByList. rewrite map_map, toLowerCase_idemp.
    f_equal. apply map_ext. intros u. apply toLowerCase_idemp.
Qed.

(** X14. The scan reports an exclusion exactly when some configured slug is
    valid and its team answers with status 200 and state [active], or its
    query fails while failures are skipped; a pending membership, another
    status or an invalid slug never excludes. *)
Theorem isUserExcludedByTeams_result (r : Remote) (teams : list string) (username : string)
    (skipOnFailure : bool) :
  snd (isUserExcludedByTeams r teams username skipOnFailure)
  = existsb (team_excludes r username skipOnFailure) teams.
Proof.
  induction teams as [|slug rest IH]; [done|].
  simpl. unfold team_excludes at 1.
  destruct (parseTeamSlug slug) as [parsed|]; simpl; [|done].
  destruct (getMembershipForUserInOrg r _ _ username) as [status st|msg].
  - by destruct (_ && _).
  - by destruct skipOnFailure.
Qed.

End Slugs.

(** A slug as written, and one with blanks around its parts. *)
Lemma parseTeamSlug_round_trip_witness :
  Exclusions.parseTeamSlug ("acme" +:+ "/" +:+ "maintainers")
  = Some {| Exclusions.org := "acme"; Exclusions.team := "maintainers" |}.
Proof.
  apply (parseTeamSlug_round_trip "acme" "maintainers"); (discriminate || reflexivity).
Defined.

Lemma parseTeamSlug_parts_witness :
  ("acme" ≠ EmptyString ∧ JsString.trim "acme" = "acme" ∧ free_of "/" "acme" = true)
  ∧ ("maintainers" ≠ EmptyString ∧ JsString.trim "maintainers" = "maintainers"
     ∧ free_of "/" "maintainers" = true).
Proof.
  apply (parseTeamSlug_parts " acme / maintainers "
           {| Exclusions.org := "acme"; Exclusions.team := "maintainers" |}).
  vm_compute. reflexivity.
Defined.

(** ** The rendering of comments *)

Lemma append_assoc (a b c : string) : (a +:+ b) +:+ c = a +:+ b +:+ c.
Proof. induction a as [|x a IH]; [done|]. rewrite !append_cons. by rewrite IH. Qed.

Lemma append_nil_r (a : string) : a +:+ EmptyString = a.
Proof. induction a as [|x a IH]; [done|]. rewrite append_cons. by rewrite IH. Qed.

Lemma scan_no_brace inherited vars (s : string) :
  free_of "{" s = true → Template.scan inherited vars None s = s.
Proof.
  induction s as [|c s IH]; [done|]. simpl.
  destruct (Ascii.eqb c "{"); [done|]. simpl. intros H. by rewrite (IH H).
Qed.

Lemma scan_key inherited vars (key acc post : string) :
  Template.is_words key = true →
  acc +:+ key ≠ EmptyString →
  Template.scan inherited vars (Some acc) (key +:+ String "}" post)
  = Template.lookup inherited vars (acc +:+ key) +:+ Template.scan inherited vars None post.
Proof.
  revert acc. induction key as [|c key IH]; intros acc Hword Hne.
  - rewrite append_nil_r in *. change (EmptyString +:+ String "}" post) with (String "}" post).
    simpl.
    assert (JsString.truthy acc = true) as ->; [|done].
    unfold JsString.truthy. by destruct (String.eqb_spec acc EmptyString).
  - simpl in Hword. apply andb_prop in Hword as [Hc Hword].
    rewrite append_cons. simpl. rewrite Hc.
    rewrite (IH (acc +:+ String c EmptyString)); [|done|].
    + by rewrite append_assoc.
    + rewrite append_assoc. done.
Qed.

(** X16. A template without an opening brace is rendered as it is. *)
Theorem renderTemplate_plain inherited vars (template : string) :
  free_of "{" template = true →
  Template.renderTemplate inherited template vars = template.
Proof. apply scan_no_brace. Qed.

(** X17. The first placeholder of a template, a word between braces after a
    text without opening brace, is replaced by the value of that word, and
    the rendering goes on after the closing brace: the value itself is not
    rendered again. *)
Theorem renderTemplate_placeholder inherited vars (before key after : string) :
  free_of "{" before = true →
  Template.is_identifier key = true →
  Template.renderTemplate inherited (before +:+ "{" +:+ key +:+ "}" +:+ after) vars
  = before +:+ Template.lookup inherited vars key
    +:+ Template.renderTemplate inherited after vars.
Proof.
  intros Hfree [Hne Hword]%andb_prop. unfold Template.renderTemplate.
  induction before as [|c before IH].
  - change (EmptyString +:+ "{" +:+ key +:+ "}" +:+ after)
      with (String "{" (key +:+ String "}" after)).
    simpl.
    assert (Hkey : EmptyString +:+ key ≠ EmptyString).
    { change (EmptyString +:+ key) with key. by destruct key. }
    exact (scan_key inherited vars key EmptyString after Hword Hkey).
  - simpl in Hfree. apply andb_prop in Hfree as [Hc Hfree].
    rewrite !(append_cons c before). simpl.
    destruct (Ascii.eqb c "{"); [done|]. by rewrite (IH Hfree).
Qed.

(** A template without and with a placeholder. *)
Lemma renderTemplate_plain_witness :
  Template.renderTemplate (fun _ => None) "Limit reached."
    {| var_author := "alice"; var_openCount := 2; var_allowedOpen := 1;
       var_mergedCount := 0 |}
  = "Limit reached.".
Proof. apply renderTemplate_plain. reflexivity. Defined.

Lemma renderTemplate_placeholder_witness :
  let vars := {| var_author := "alice"; var_openCount := 2; var_allowedOpen := 1;
                 var_mergedCount := 0 |} in
  Template.renderTemplate (fun _ => None)
    ("Hi " +:+ "{" +:+ "author" +:+ "}" +:+ ", you have {openCount} open.") vars
  = "Hi " +:+ Template.lookup (fun _ => None) vars "author"
    +:+ Template.renderTemplate (fun _ => None) ", you have {openCount} open." vars.
Proof. intros vars. apply renderTemplate_placeholder; reflexivity. Defined.

(** ** Every run *)

(** *** The ways a run can go *)

Lemma quiet_nil : quiet [].
Proof. done. Qed.

Lemma countsStage_cases (h : Host) inputs pr author :
  (∃ q1 q2 counts, countsStage h inputs pr author = ([CountsQuery q1 q2], Next counts))
  ∨ (∃ level line,
       countsStage h inputs pr author
       = ([Log level line; SetOutput "decision" "skipped"], Returned))
  ∨ (∃ q1 q2 line,
       Config.skipOnFailure inputs = true
       ∧ countsStage h inputs pr author
         = ([CountsQuery q1 q2; Log Warning line; SetOutput "decision" "skipped"], Returned))
  ∨ (∃ q1 q2 message,
       Config.skipOnFailure inputs = false
       ∧ countsStage h inputs pr author = ([CountsQuery q1 q2], Thrown message)).
Proof.
  unfold countsStage, Graphql.fetchAuthorPRCounts, try_catch.
  destruct (negb _); act_unfold; [right; left; eauto|].
  destruct (graphql _ _ _) as [[open merged]|e]; simpl; [left; eauto|].
  destruct (Config.skipOnFailure inputs); simpl; [right; right; left | right; right; right];
    eauto 10.
Qed.

Lemma draftGate_cases inputs pr :
  draftGate inputs pr = ([], Next tt)
  ∨ draftGate inputs pr
    = ([Log Info (DraftNotCounted (number pr)); SetOutput "decision" "ok"], Returned).
Proof. unfold draftGate. destruct (_ && _); act_unfold; auto. Qed.

Lemma preamble_thrown (h : Host) (message : string) :
  snd (preamble h) = Thrown message → Config.parseInputs (source h) = Err message.
Proof.
  unfold preamble.
  destruct (Config.parseInputs (source h)) as [inputs|e]; act_unfold; [|congruence].
  destruct (negb _ && negb _); act_unfold; [done|].
  destruct (payload_pull_request (context h)) as [pr|]; act_unfold; [|done].
  destruct (JsString.or_undefined _) as [author|]; act_unfold; [|done].
  destruct (isBotUser _ author); act_unfold; [done|].
  destruct (JsString.or_undefined _) as [token|]; act_unfold; [|done].
  destruct (Exclusions.isUserExcludedByList _ author); act_unfold; done.
Qed.

(** Every way the entry gates can end. *)
Lemma entry_cases (h : Host) :
  ∃ tr, quiet tr
    ∧ ((∃ inputs pr author counts q1 q2,
          Config.parseInputs (source h) = Ok inputs
          ∧ entry h = (tr ++ [CountsQuery q1 q2], Next (inputs, pr, author, counts)))
       ∨ (∃ level line d,
            (d = "skipped" ∨ d = "ok")
            ∧ entry h = (tr ++ [Log level line; SetOutput "decision" d], Returned))
       ∨ (∃ q1 q2 line,
            entry h = (tr ++ [CountsQuery q1 q2; Log Warning line;
                              SetOutput "decision" "skipped"], Returned))
       ∨ (∃ message,
            Config.parseInputs (source h) = Err message
            ∧ entry h = ([], Thrown message))
       ∨ (∃ inputs q1 q2 message,
            Config.parseInputs (source h) = Ok inputs
            ∧ Config.skipOnFailure inputs = false
            ∧ entry h = (tr ++ [CountsQuery q1 q2], Thrown message))).
Proof.
  unfold entry. rewrite bind_unfold.
  destruct (preamble_cases h) as [[[[inputs pr] author] Hp]|[(level & line & Hp)|[message Hp]]].
  2: { rewrite Hp. exists []. split; [done|]. right. left. exists level, line, "skipped". auto. }
  2: { exists []. split; [done|]. do 3 right. left. exists message.
       split; [apply preamble_thrown; by rewrite Hp | by rewrite Hp]. }
  assert (Hparse : Config.parseInputs (source h) = Ok inputs).
  { apply (preamble_next_iff h inputs pr author). by rewrite Hp. }
  rewrite Hp. cbv beta iota. cbn [fst snd app]. rewrite bind_unfold.
  destruct (teamsGate_cases h inputs author) as (tr & He & Hc & [Ht|Ht]); rewrite Ht;
    cbn [fst snd].
  2: { exists tr. split; [done|]. right. left. eauto 10. }
  exists tr. split; [done|].
  rewrite bind_unfold.
  destruct (draftGate_cases inputs pr) as [Hd|Hd]; rewrite Hd; cbn [fst snd app].
  2: { right. left. eauto 10. }
  rewrite bind_unfold.
  destruct (countsStage_cases h inputs pr author)
    as [(q1 & q2 & counts & Hs)|[(level & line & Hs)|[(q1 & q2 & line & Hskip & Hs)
       |(q1 & q2 & message & Hskip & Hs)]]]; rewrite Hs; cbn [fst snd app].
  - left. exists inputs, pr, author, counts, q1, q2. split; [done|].
    by act_unfold.
  - right. left. eauto 10.
  - right. right. left. eauto 10.
  - do 4 right. eauto 10.
Qed.

Lemma quiet_filter (p : Event → bool) (tr : list Event) :
  quiet tr →
  (∀ e, p e = true → is_effect e = true ∨ is_counts_query e = true) →
  List.filter p tr = [].
Proof.
  intros [He Hc] Hp. induction tr as [|e tr IH]; [done|].
  simpl in He, Hc |- *. apply orb_false_elim in Hc as [Hce Hc].
  destruct (is_effect e) eqn:Hee; [done|].
  destruct (p e) eqn:Hpe; [|by apply IH].
  destruct (Hp e Hpe); congruence.
Qed.

Lemma quiet_existsb (p : Event → bool) (tr : list Event) :
  quiet tr →
  (∀ e, p e = true → is_effect e = true ∨ is_counts_query e = true) →
  existsb p tr = false.
Proof.
  intros Hq Hp. pose proof (quiet_filter p tr Hq Hp) as Hf.
  induction tr as [|e tr IH]; [done|].
  simpl in *. destruct (p e); [done|]. simpl. apply IH; [|done].
  destruct Hq as [He Hc]. simpl in He, Hc. apply orb_false_elim in Hc as [_ Hc].
  destruct (is_effect e); [done|]. done.
Qed.

Lemma count_app (p : Event → bool) (a b : list Event) :
  count p (a ++ b) = (count p a + count p b)%nat.
Proof. unfold count. by rewrite List.filter_app, length_app. Qed.

Lemma quiet_count (p : Event → bool) (tr : list Event) :
  quiet tr →
  (∀ e, p e = true → is_effect e = true ∨ is_counts_query e = true) →
  count p tr = 0%nat.
Proof. intros Hq Hp. unfold count. by rewrite (quiet_filter p tr Hq Hp). Qed.

Lemma request_kinds :
  (∀ e, is_counts_query e = true → is_effect e = true ∨ is_counts_query e = true)
  ∧ (∀ e, is_comment e = true → is_effect e = true ∨ is_counts_query e = true)
  ∧ (∀ e, is_update e = true → is_effect e = true ∨ is_counts_query e = true)
  ∧ (∀ e, is_label e = true → is_effect e = true ∨ is_counts_query e = true)
  ∧ (∀ e, is_failure e = true → is_effect e = true ∨ is_counts_query e = true).
Proof. repeat split; intros [| | | | |[]]; simpl; auto. Qed.

Lemma run_of_entry (h : Host) :
  ∃ tr, quiet tr
    ∧ ((∃ inputs pr author counts q1 q2,
          Config.parseInputs (source h) = Ok inputs
          ∧ run h = tr ++ CountsQuery q1 q2
                       :: catch_all (decideAction h inputs pr author counts))
       ∨ (∃ level line d,
            (d = "skipped" ∨ d = "ok")
            ∧ run h = tr ++ [Log level line; SetOutput "decision" d])
       ∨ (∃ q1 q2 line,
            run h = tr ++ [CountsQuery q1 q2; Log Warning line;
                           SetOutput "decision" "skipped"])
       ∨ (∃ message,
            Config.parseInputs (source h) = Err message ∧ run h = [SetFailed message])
       ∨ (∃ inputs q1 q2 message,
            Config.parseInputs (source h) = Ok inputs
            ∧ Config.skipOnFailure inputs = false
            ∧ run h = tr ++ [CountsQuery q1 q2; SetFailed message])).
Proof.
  destruct (entry_cases h) as (tr & Hq & Hcases). exists tr. split; [done|].
  destruct Hcases as [(inputs & pr & author & counts & q1 & q2 & Hp & He)
    |[(level & line & d & Hd & He)|[(q1 & q2 & line & He)|[(message & Hp & He)
    |(inputs & q1 & q2 & message & Hp & Hs & He)]]]].
  - left. exists inputs, pr, author, counts, q1, q2. split; [done|].
    rewrite (run_passed h inputs pr author counts); [|by rewrite He].
    rewrite He. cbn [fst]. by rewrite <- app_assoc.
  - right. left. exists level, line, d. split; [done|].
    rewrite run_returned; by rewrite He.
  - right. right. left. exists q1, q2, line. rewrite run_returned; by rewrite He.
  - do 3 right. left. exists message. split; [done|]. by apply run_config_error.
  - do 4 right. exists inputs, q1, q2, message. split; [done|]. split; [done|].
    rewrite (run_thrown h message); rewrite He; [|done]. cbn [fst]. by rewrite <- app_assoc.
Qed.

Ltac unfold_run_case Hq :=
  unfold count, acted;
  rewrite ?outputs_app, ?existsb_app, ?List.filter_app, ?length_app,
    ?(outputs_quiet _ _ (proj1 Hq)),
    ?(quiet_existsb _ _ Hq (proj1 (proj2 request_kinds))),
    ?(quiet_existsb _ _ Hq (proj2 (proj2 (proj2 (proj2 request_kinds))))),
    ?(quiet_existsb _ _ Hq (proj1 request_kinds)),
    ?(quiet_filter _ _ Hq (proj1 request_kinds)),
    ?(quiet_filter _ _ Hq (proj1 (proj2 request_kinds))),
    ?(quiet_filter _ _ Hq (proj1 (proj2 (proj2 request_kinds)))),
    ?(quiet_filter _ _ Hq (proj1 (proj2 (proj2 (proj2 request_kinds)))));
  cbn [app orb length Nat.add].

(** *** What no run does *)

(** X18. Every run either fails, and then sets no decision, or sets the
    decision exactly once, to [ok], [skipped], [closed] or
    [reverted_to_draft], and does not fail. *)
Theorem decision_or_failure (h : Host) :
  (existsb is_failure (run h) = true ∧ outputs "decision" (run h) = [])
  ∨ (existsb is_failure (run h) = false
     ∧ ∃ d, d ∈ ["ok"; "skipped"; "closed"; "reverted_to_draft"]
            ∧ outputs "decision" (run h) = [d]).
Proof.
  destruct (run_of_entry h) as (tr & Hq & Hcases).
  destruct Hcases as [(inputs & pr & author & counts & q1 & q2 & Hp & ->)
    |[(level & line & d & Hd & ->)|[(q1 & q2 & line & ->)|[(message & Hp & ->)
    |(inputs & q1 & q2 & message & Hp & Hs & ->)]]]].
  - rewrite decideAction_trace. unfold_run_case Hq. simpl.
    destruct (_ >=? _)%Z; simpl.
    + match goal with |- context [enforce ?a ?b ?c ?d ?e ?f ?g] =>
        destruct (enforce_observed a b c d e f g) as (_ & _ & _ & _ & Hd)
      end.
      destruct Hd as [[Hf Hd]|[Hf Hd]]; [right | left; by rewrite Hf, Hd].
      rewrite Hf. split; [done|].
      destruct Hd as [-> | [-> | ->]]; eexists; (split; [|done]);
        rewrite !elem_of_cons; auto.
    + right. split; [done|]. exists "ok". split; [rewrite !elem_of_cons; auto | done].
  - unfold_run_case Hq. simpl. right. split; [done|]. exists d.
    split; [destruct Hd as [-> | ->]; rewrite !elem_of_cons; auto | done].
  - unfold_run_case Hq. simpl. right. split; [done|]. exists "skipped".
    split; [rewrite !elem_of_cons; auto | done].
  - left. done.
  - unfold_run_case Hq. simpl. by left.
Qed.

Lemma enforce_counts (r : Remote) inputs actionType owner repo n vars :
  let tr := catch_all (enforce r inputs actionType owner repo n vars) in
  count is_counts_query tr = 0%nat
  ∧ (count is_comment tr <= 1)%nat
  ∧ (count is_update tr <= 1)%nat
  ∧ (count is_label tr <= 1)%nat.
Proof. unfold count. enforce_cases inputs; repeat split; lia. Qed.

(** X19. In every run the count query, the comment request, the pull-request
    update and the label request are each made at most once. *)
Theorem each_request_at_most_once (h : Host) :
  (count is_counts_query (run h) <= 1)%nat
  ∧ (count is_comment (run h) <= 1)%nat
  ∧ (count is_update (run h) <= 1)%nat
  ∧ (count is_label (run h) <= 1)%nat.
Proof.
  destruct (run_of_entry h) as (tr & Hq & Hcases).
  destruct Hcases as [(inputs & pr & author & counts & q1 & q2 & Hp & ->)
    |[(level & line & d & Hd & ->)|[(q1 & q2 & line & ->)|[(message & Hp & ->)
    |(inputs & q1 & q2 & message & Hp & Hs & ->)]]]].
  - rewrite decideAction_trace. unfold_run_case Hq. simpl.
    destruct (_ >=? _)%Z; simpl; [|lia].
    match goal with |- context [enforce ?a ?b ?c ?d ?e ?f ?g] =>
      destruct (enforce_counts a b c d e f g) as (Hc & Hm & Hu & Hl)
    end.
    unfold count in *. lia.
  - unfold_run_case Hq. simpl. lia.
  - unfold_run_case Hq. simpl. lia.
  - unfold count. simpl. lia.
  - unfold_run_case Hq. simpl. lia.
Qed.

Lemma enforce_no_failure (r : Remote) inputs actionType owner repo n vars :
  Config.skipOnFailure inputs = true →
  existsb is_failure (catch_all (enforce r inputs actionType owner repo n vars)) = false.
Proof. intros H. branch_unfold. rewrite !H. repeat step_case inputs; done. Qed.

(** X20. Once the inputs parse, a run with [skipOnFailure] never fails,
    whatever the remote side answers. *)
Theorem skipOnFailure_never_fails (h : Host) (inputs : Config.Inputs) :
  Config.parseInputs (source h) = Ok inputs →
  Config.skipOnFailure inputs = true →
  existsb is_failure (run h) = false.
Proof.
  intros Hparse Hskip.
  destruct (run_of_entry h) as (tr & Hq & Hcases).
  destruct Hcases as [(inputs' & pr & author & counts & q1 & q2 & Hp & ->)
    |[(level & line & d & Hd & ->)|[(q1 & q2 & line & ->)|[(message & Hp & ->)
    |(inputs' & q1 & q2 & message & Hp & Hs & ->)]]]].
  - assert (inputs' = inputs) as -> by congruence.
    rewrite decideAction_trace. unfold_run_case Hq. simpl.
    destruct (_ >=? _)%Z; simpl; [|done]. by apply enforce_no_failure.
  - by unfold_run_case Hq.
  - by unfold_run_case Hq.
  - congruence.
  - congruence.
Qed.

Lemma enforce_closed (r : Remote) inputs actionType owner repo n vars :
  let tr := catch_all (enforce r inputs actionType owner repo n vars) in
  outputs "decision" tr = ["closed"] →
  Rest (PullsUpdate owner repo n StateClosed) ∈ tr
  ∧ rest r (PullsUpdate owner repo n StateClosed) = Ok tt
  ∧ existsb is_comment tr = true
  ∧ existsb is_revert tr = false.
Proof.
  enforce_cases inputs; intros Hd; try discriminate Hd;
    (split; [rewrite !elem_of_cons; auto 10|]); done.
Qed.

Lemma enforce_reverted (r : Remote) inputs actionType owner repo n vars :
  let tr := catch_all (enforce r inputs actionType owner repo n vars) in
  outputs "decision" tr = ["reverted_to_draft"] →
  (Config.countDrafts inputs = false
   ∧ Config.revertToDraftOnReady inputs = true
   ∧ actionType = Some "ready_for_review")
  ∧ Rest (PullsUpdate owner repo n DraftTrue) ∈ tr
  ∧ rest r (PullsUpdate owner repo n DraftTrue) = Ok tt
  ∧ existsb is_close tr = false.
Proof.
  assert (Hcond : ∀ p : Prop, ∀ d : Decision p,
            negb (Config.countDrafts inputs) && Config.revertToDraftOnReady inputs
            && @bool_decide p d = true →
            Config.countDrafts inputs = false ∧ Config.revertToDraftOnReady inputs = true ∧ p).
  { intros p d H. apply andb_prop in H as [H Hp]. apply andb_prop in H as [Hc Hr].
    apply bool_decide_eq_true in Hp. by destruct (Config.countDrafts inputs). }
  enforce_cases inputs; intros Hd; try discriminate Hd;
    (split; [by eapply Hcond|]); (split; [rewrite !elem_of_cons; auto 10|]); done.
Qed.

Lemma outputs_decision_prefix (tr : list Event) (q1 q2 : string) (l : list Event) :
  quiet tr →
  outputs "decision" (tr ++ CountsQuery q1 q2 :: l) = outputs "decision" l.
Proof. intros Hq. rewrite outputs_app, (outputs_quiet _ _ (proj1 Hq)). done. Qed.

(** X21. A run whose decision is [closed] has made a close request that the
    remote side accepted, after attempting the comment, and has made no
    revert request. *)
Theorem closed_after_accepted_close (h : Host) :
  outputs "decision" (run h) = ["closed"] →
  (∃ owner repo n,
     Rest (PullsUpdate owner repo n StateClosed) ∈ run h
     ∧ rest (remote h) (PullsUpdate owner repo n StateClosed) = Ok tt)
  ∧ existsb is_comment (run h) = true
  ∧ existsb is_revert (run h) = false.
Proof.
  destruct (run_of_entry h) as (tr & Hq & Hcases).
  destruct Hcases as [(inputs & pr & author & counts & q1 & q2 & Hp & ->)
    |[(level & line & d & Hd & ->)|[(q1 & q2 & line & ->)|[(message & Hp & ->)
    |(inputs & q1 & q2 & message & Hp & Hs & ->)]]]].
  - rewrite decideAction_trace.
    assert (Hrev : ∀ e, is_revert e = true → is_effect e = true ∨ is_counts_query e = true).
    { intros [| | | | |[]]; simpl; auto. }
    rewrite outputs_decision_prefix by done.
    rewrite !existsb_app, (quiet_existsb _ _ Hq (proj1 (proj2 request_kinds))),
      (quiet_existsb _ _ Hq Hrev).
    simpl. destruct (_ >=? _)%Z; simpl; [|done].
    intros Hd. match goal with |- context [enforce ?a ?b ?c ?d ?e ?f ?g] =>
      destruct (enforce_closed a b c d e f g Hd) as (Hin & Hok & Hc & Hr)
    end.
    split; [|done]. eexists _, _, _. split; [|exact Hok].
    rewrite elem_of_app. right. do 5 right. exact Hin.
  - rewrite outputs_app, (outputs_quiet _ _ (proj1 Hq)). simpl.
    destruct Hd as [-> | ->]; done.
  - by rewrite outputs_app, (outputs_quiet _ _ (proj1 Hq)).
  - done.
  - by rewrite outputs_app, (outputs_quiet _ _ (proj1 Hq)).
Qed.

(** X22. A run whose decision is [reverted_to_draft] ran with [countDrafts]
    off and [revertToDraftOnReady] on, on a [ready_for_review] action; it
    has made a revert request that the remote side accepted, and no close
    request. *)
Theorem reverted_only_on_ready_for_review (h : Host) :
  outputs "decision" (run h) = ["reverted_to_draft"] →
  (∃ inputs,
     Config.parseInputs (source h) = Ok inputs
     ∧ Config.countDrafts inputs = false
     ∧ Config.revertToDraftOnReady inputs = true)
  ∧ payload_action (context h) = Some "ready_for_review"
  ∧ (∃ owner repo n,
       Rest (PullsUpdate owner repo n DraftTrue) ∈ run h
       ∧ rest (remote h) (PullsUpdate owner repo n DraftTrue) = Ok tt)
  ∧ existsb is_close (run h) = false.
Proof.
  destruct (run_of_entry h) as (tr & Hq & Hcases).
  destruct Hcases as [(inputs & pr & author & counts & q1 & q2 & Hp & ->)
    |[(level & line & d & Hd & ->)|[(q1 & q2 & line & ->)|[(message & Hp & ->)
    |(inputs & q1 & q2 & message & Hp & Hs & ->)]]]].
  - rewrite decideAction_trace.
    assert (Hclose : ∀ e, is_close e = true → is_effect e = true ∨ is_counts_query e = true).
    { intros [| | | | |[]]; simpl; auto. }
    rewrite outputs_decision_prefix by done.
    rewrite !existsb_app, (quiet_existsb _ _ Hq Hclose).
    simpl. destruct (_ >=? _)%Z; simpl; [|done].
    intros Hd. match goal with |- context [enforce ?a ?b ?c ?d ?e ?f ?g] =>
      destruct (enforce_reverted a b c d e f g Hd) as ((Hcd & Hrd & Hact) & Hin & Hok & Hc)
    end.
    split; [eauto|]. split; [done|]. split; [|done].
    eexists _, _, _. split; [|exact Hok].
    rewrite elem_of_app. right. do 5 right. exact Hin.
  - rewrite outputs_app, (outputs_quiet _ _ (proj1 Hq)). simpl.
    destruct Hd as [-> | ->]; done.
  - by rewrite outputs_app, (outputs_quiet _ _ (proj1 Hq)).
  - done.
  - by rewrite outputs_app, (outputs_quiet _ _ (proj1 Hq)).
Qed.

(** Comments rejected; a closed and a reverted pull request. *)
Lemma skipOnFailure_never_fails_witness :
  existsb is_failure (run Scenario.comment_rejected_host) = false.
Proof.
  apply (skipOnFailure_never_fails Scenario.comment_rejected_host
           (Scenario.parsed (source Scenario.comment_rejected_host)));
    vm_compute; reflexivity.
Defined.

Lemma closed_after_accepted_close_witness :
  (∃ owner repo n,
     Rest (PullsUpdate owner repo n StateClosed) ∈ run Scenario.at_limit_host
     ∧ rest (remote Scenario.at_limit_host) (PullsUpdate owner repo n StateClosed) = Ok tt)
  ∧ existsb is_comment (run Scenario.at_limit_host) = true
  ∧ existsb is_revert (run Scenario.at_limit_host) = false.
Proof. apply (closed_after_accepted_close Scenario.at_limit_host). vm_compute. reflexivity. Defined.

Lemma reverted_only_on_ready_for_review_witness :
  (∃ inputs,
     Config.parseInputs (source Scenario.revert_host) = Ok inputs
     ∧ Config.countDrafts inputs = false
     ∧ Config.revertToDraftOnReady inputs = true)
  ∧ payload_action (context Scenario.revert_host) = Some "ready_for_review"
  ∧ (∃ owner repo n,
       Rest (PullsUpdate owner repo n DraftTrue) ∈ run Scenario.revert_host
       ∧ rest (remote Scenario.revert_host) (PullsUpdate owner repo n DraftTrue) = Ok tt)
  ∧ existsb is_close (run Scenario.revert_host) = false.
Proof. apply (reverted_only_on_ready_for_review Scenario.revert_host). vm_compute. reflexivity. Defined.

(** *** The enforcement branches *)

(** X23. In the close branch, when the close request is accepted and the
    comment is accepted or [skipOnFailure] is off, the decision is [closed]
    and the run does not fail, whatever becomes of the label request. *)
Theorem label_failure_keeps_closed (h : Host) inputs pr author counts :
  snd (entry h) = Next (inputs, pr, author, counts) →
  (effectiveOpen (Graphql.openCount counts) (Config.countDrafts inputs) (draft pr)
   >= Config.allowedOpenFromPolicy (Config.policy inputs) (Graphql.mergedCount counts))%Z →
  negb (Config.countDrafts inputs) && Config.revertToDraftOnReady inputs
  && bool_decide (payload_action (context h) = Some "ready_for_review") = false →
  (∀ owner repo n, rest (remote h) (PullsUpdate owner repo n StateClosed) = Ok tt) →
  (∀ owner repo n body, rest (remote h) (CreateComment owner repo n body) = Ok tt)
  ∨ Config.skipOnFailure inputs = false →
  outputs "decision" (run h) = ["closed"] ∧ existsb is_failure (run h) = false.
Proof.
  intros H Hge Hbranch Hclose Hcomment. past_gates H.
  destruct (Z.geb_spec
              (effectiveOpen (Graphql.openCount counts) (Config.countDrafts inputs) (draft pr))
              (Config.allowedOpenFromPolicy (Config.policy inputs)
                 (Graphql.mergedCount counts))) as [_|Hlt]; [|lia].
  branch_unfold. rewrite Hbranch, !Hclose. simpl.
  destruct Hcomment as [Hcomment|Hskip].
  - rewrite !Hcomment. simpl. repeat step_case inputs; done.
  - rewrite !Hskip. repeat step_case inputs; done.
Qed.

(** X24. Past the gates and at or above the limit: in the revert branch no
    close request is made and a comment is attempted exactly when
    [backToDraftComment] is not blank; in the close branch no revert request
    is made and the comment is always attempted. *)
Theorem enforcement_branches (h : Host) inputs pr author counts :
  snd (entry h) = Next (inputs, pr, author, counts) →
  (effectiveOpen (Graphql.openCount counts) (Config.countDrafts inputs) (draft pr)
   >= Config.allowedOpenFromPolicy (Config.policy inputs) (Graphql.mergedCount counts))%Z →
  if negb (Config.countDrafts inputs) && Config.revertToDraftOnReady inputs
     && bool_decide (payload_action (context h) = Some "ready_for_review")
  then existsb is_close (run h) = false
       ∧ (existsb is_comment (run h) = true
          ↔ JsString.trim (Config.backToDraftComment inputs) ≠ EmptyString)
  else existsb is_revert (run h) = false
       ∧ existsb is_comment (run h) = true.
Proof.
  intros H Hge.
  assert (Hclose : ∀ e, is_close e = true → is_effect e = true) by (by intros [| | | | |[]]).
  assert (Hrevert : ∀ e, is_revert e = true → is_effect e = true) by (by intros [| | | | |[]]).
  pose proof (entry_next_quiet _ _ H) as Hq.
  rewrite (run_passed _ _ _ _ _ H), decideAction_trace.
  rewrite !existsb_app, (existsb_quiet _ _ Hclose Hq), (existsb_quiet _ _ Hrevert Hq),
    (existsb_quiet _ _ comment_is_effect Hq).
  destruct (Z.geb_spec
              (effectiveOpen (Graphql.openCount counts) (Config.countDrafts inputs) (draft pr))
              (Config.allowedOpenFromPolicy (Config.policy inputs)
                 (Graphql.mergedCount counts))) as [_|Hlt]; [|lia].
  branch_unfold.
  destruct (negb (Config.countDrafts inputs) && Config.revertToDraftOnReady inputs
            && bool_decide _); simpl.
  - destruct (JsString.trim (Config.backToDraftComment inputs)) as [|c s] eqn:Hb; simpl.
    + repeat step_case inputs; (split; [done|]); split; done.
    + repeat step_case inputs; (split; [done|]); split; done.
  - repeat step_case inputs; done.
Qed.

(** A rejected label; a revert without a comment. *)
Lemma label_failure_keeps_closed_witness :
  outputs "decision" (run Scenario.label_rejected_host) = ["closed"]
  ∧ existsb is_failure (run Scenario.label_rejected_host) = false.
Proof.
  apply (label_failure_keeps_closed Scenario.label_rejected_host
           (Scenario.parsed (source Scenario.label_rejected_host)) (Scenario.pull false) "alice"
           {| Graphql.openCount := 2; Graphql.mergedCount := 0 |}).
  - vm_compute. reflexivity.
  - vm_compute. discriminate.
  - reflexivity.
  - reflexivity.
  - left. reflexivity.
Defined.

Lemma enforcement_branches_witness :
  existsb is_close (run Scenario.revert_host) = false
  ∧ (existsb is_comment (run Scenario.revert_host) = true
     ↔ JsString.trim (Config.backToDraftComment (Scenario.parsed (source Scenario.revert_host)))
       ≠ EmptyString).
Proof.
  apply (enforcement_branches Scenario.revert_host (Scenario.parsed (source Scenario.revert_host))
           (Scenario.pull false) "alice"
           {| Graphql.openCount := 3; Graphql.mergedCount := 0 |}).
  - vm_compute. reflexivity.
  - vm_compute. discriminate.
Defined.

(** *** Runs that end at a gate *)

Lemma toLowerCase_app (s t : string) :
  JsString.toLowerCase (s +:+ t) = JsString.toLowerCase s +:+ JsString.toLowerCase t.
Proof. induction s as [|c s IH]; [done|]. rewrite append_cons. simpl. by rewrite IH. Qed.

Lemma substring_all (s : string) : String.substring 0 (String.length s) s = s.
Proof. induction s as [|c s IH]; [done|]. simpl. by rewrite IH. Qed.

Lemma length_app_string (s t : string) :
  String.length (s +:+ t) = (String.length s + String.length t)%nat.
Proof. induction s as [|c s IH]; [done|]. rewrite append_cons. simpl. by rewrite IH. Qed.

Lemma endsWith_app (s suffix : string) : JsString.endsWith (s +:+ suffix) suffix = true.
Proof.
  unfold JsString.endsWith. rewrite length_app_string.
  replace (String.length s + String.length suffix - String.length suffix)%nat
    with (String.length s) by lia.
  assert (Hle : (String.length suffix <=? String.length s + String.length suffix)%nat = true)
    by (apply Nat.leb_le; lia).
  rewrite Hle. simpl. apply String.eqb_eq. clear Hle.
  induction s as [|c s IH]; [apply substring_all|].
  rewrite append_cons. simpl. exact IH.
Qed.

(** X25. A login that ends in [[bot]], in any letter case, is a bot whatever
    its type, and so is any login whose type is [bot] in any letter case. *)
Theorem isBotUser_recognises_bots (authorType : option string) (name suffix type : string) :
  (JsString.toLowerCase suffix = "[bot]" → isBotUser authorType (name +:+ suffix) = true)
  ∧ (JsString.toLowerCase type = "bot" → isBotUser (Some type) name = true).
Proof.
  split.
  - intros Hs. unfold isBotUser. rewrite toLowerCase_app, Hs, endsWith_app.
    apply orb_true_r.
  - intros Ht. unfold isBotUser. rewrite Ht.
    assert (JsString.truthy type = true) as ->; [|done].
    destruct type; [discriminate Ht | done].
Qed.

Lemma run_of_preamble_returned (h : Host) :
  snd (preamble h) = Returned → run h = fst (preamble h).
Proof.
  intros H. apply eq_trans with (fst (entry h)).
  - apply run_returned. unfold entry. by rewrite bind_unfold, H.
  - unfold entry. by rewrite bind_unfold, H.
Qed.

(** X26. A pull request of a bot ends the run [skipped] at once: no query
    and no request is made, whatever the token, the user list and the
    teams. *)
Theorem bot_author_is_skipped (h : Host) inputs pr author :
  Config.parseInputs (source h) = Ok inputs →
  (eventName (context h) = "pull_request" ∨ eventName (context h) = "pull_request_target") →
  payload_pull_request (context h) = Some pr →
  JsString.or_undefined (user_login pr) = Some author →
  isBotUser (user_type_of pr) author = true →
  run h = [Log Info (BotAuthor author (user_type_of pr)); SetOutput "decision" "skipped"].
Proof.
  intros Hparse Hevent Hpr Hauthor Hbot.
  assert (Hp : preamble h
               = ([Log Info (BotAuthor author (user_type_of pr));
                   SetOutput "decision" "skipped"], Returned)).
  { unfold preamble. rewrite Hparse. act_unfold.
    assert (negb (String.eqb (eventName (context h)) "pull_request")
            && negb (String.eqb (eventName (context h)) "pull_request_target") = false)
      as ->.
    { destruct Hevent as [-> | ->]; reflexivity. }
    rewrite Hpr. act_unfold. rewrite Hauthor. act_unfold. rewrite Hbot. by act_unfold. }
  rewrite run_of_preamble_returned; by rewrite Hp.
Qed.

(** X27. A pull request of a listed user ends the run [skipped] before any
    team is asked about. *)
Theorem listed_user_is_skipped (h : Host) inputs pr author token :
  Config.parseInputs (source h) = Ok inputs →
  (eventName (context h) = "pull_request" ∨ eventName (context h) = "pull_request_target") →
  payload_pull_request (context h) = Some pr →
  JsString.or_undefined (user_login pr) = Some author →
  isBotUser (user_type_of pr) author = false →
  JsString.or_undefined
    (JsString.or_else (Config.token inputs) (Config.env_GITHUB_TOKEN (source h)))
  = Some token →
  Exclusions.isUserExcludedByList (Config.excludeUsers inputs) author = true →
  run h = [Log Info (AuthorInExcludeUsers author); SetOutput "decision" "skipped"].
Proof.
  intros Hparse Hevent Hpr Hauthor Hbot Htoken Hlist.
  assert (Hp : preamble h
               = ([Log Info (AuthorInExcludeUsers author);
                   SetOutput "decision" "skipped"], Returned)).
  { unfold preamble. rewrite Hparse. act_unfold.
    assert (negb (String.eqb (eventName (context h)) "pull_request")
            && negb (String.eqb (eventName (context h)) "pull_request_target") = false)
      as ->.
    { destruct Hevent as [-> | ->]; reflexivity. }
    rewrite Hpr. act_unfold. rewrite Hauthor. act_unfold. rewrite Hbot. act_unfold.
    rewrite Htoken. act_unfold. rewrite Hlist. by act_unfold. }
  rewrite run_of_preamble_returned; by rewrite Hp.
Qed.

(** X28. When the inputs carry no token and GITHUB_TOKEN is unset or empty,
    the run ends [skipped] with a warning: it does not fail and asks the
    remote side nothing. *)
Theorem missing_token_is_skipped (h : Host) inputs pr author :
  Config.parseInputs (source h) = Ok inputs →
  (eventName (context h) = "pull_request" ∨ eventName (context h) = "pull_request_target") →
  payload_pull_request (context h) = Some pr →
  JsString.or_undefined (user_login pr) = Some author →
  isBotUser (user_type_of pr) author = false →
  Config.token inputs = None →
  (Config.env_GITHUB_TOKEN (source h) = None
   ∨ Config.env_GITHUB_TOKEN (source h) = Some EmptyString) →
  run h = [Log Warning NoToken; SetOutput "decision" "skipped"].
Proof.
  intros Hparse Hevent Hpr Hauthor Hbot Htoken Henv.
  assert (Hp : preamble h = ([Log Warning NoToken; SetOutput "decision" "skipped"], Returned)).
  { unfold preamble. rewrite Hparse. act_unfold.
    assert (negb (String.eqb (eventName (context h)) "pull_request")
            && negb (String.eqb (eventName (context h)) "pull_request_target") = false)
      as ->.
    { destruct Hevent as [-> | ->]; reflexivity. }
    rewrite Hpr. act_unfold. rewrite Hauthor. act_unfold. rewrite Hbot. act_unfold.
    rewrite Htoken. by destruct Henv as [-> | ->]. }
  rewrite run_of_preamble_returned; by rewrite Hp.
Qed.

Lemma teamsGate_next (h : Host) inputs author :
  snd (teamsGate h inputs author) = Next tt →
  quiet (fst (teamsGate h inputs author)).
Proof.
  intros H. destruct (teamsGate_cases h inputs author) as (tr & He & Hc & [Heq|Heq]);
    rewrite Heq in H |- *; [done | discriminate H].
Qed.

Lemma entry_to_counts (h : Host) inputs pr author :
  snd (preamble h) = Next (inputs, pr, author) →
  snd (teamsGate h inputs author) = Next tt →
  snd (draftGate inputs pr) = Next tt →
  entry h
  = (fst (teamsGate h inputs author) ++ fst (countsStage h inputs pr author),
     match snd (countsStage h inputs pr author) with
     | Next counts => Next (inputs, pr, author, counts)
     | Returned => Returned
     | Thrown e => Thrown e
     end).
Proof.
  intros Hp Ht Hd. unfold entry.
  rewrite bind_unfold, (preamble_next h _ Hp). cbv beta iota. cbn [fst snd app].
  rewrite bind_unfold, Ht.
  destruct (draftGate_cases inputs pr) as [Heq|Heq]; rewrite Heq in Hd |- *;
    [|discriminate Hd].
  rewrite bind_unfold. cbn [fst snd app]. rewrite bind_unfold.
  destruct (countsStage h inputs pr author) as [tr [counts| |e]]; cbn [fst snd];
    [|done|done].
  act_unfold. by rewrite app_nil_r.
Qed.

(** X29. A pull request that is not open ends the run [skipped], without a
    count query and without a comment, close or revert request. *)
Theorem pull_request_not_open_is_skipped (h : Host) inputs pr author :
  snd (preamble h) = Next (inputs, pr, author) →
  snd (teamsGate h inputs author) = Next tt →
  snd (draftGate inputs pr) = Next tt →
  default "open" (JsString.or_undefined (state pr)) ≠ "open" →
  outputs "decision" (run h) = ["skipped"]
  ∧ existsb is_counts_query (run h) = false
  ∧ acted (run h) = false.
Proof.
  intros Hp Ht Hd Hstate.
  pose proof (entry_to_counts h inputs pr author Hp Ht Hd) as Hentry.
  pose proof (teamsGate_next h inputs author Ht) as Hq.
  assert (Hs : countsStage h inputs pr author
               = ([Log Info (NotOpen (number pr)
                               (default "open" (JsString.or_undefined (state pr))));
                   SetOutput "decision" "skipped"], Returned)).
  { unfold countsStage.
    destruct (String.eqb_spec (default "open" (JsString.or_undefined (state pr))) "open");
      [done|]. by act_unfold. }
  rewrite Hs in Hentry. cbn [fst snd] in Hentry.
  rewrite run_returned; rewrite Hentry; [|done]. cbn [fst].
  unfold acted. rewrite outputs_app, !existsb_app, (outputs_quiet _ _ (proj1 Hq)),
    (proj2 Hq), (existsb_quiet _ _ acted_is_effect (proj1 Hq)). done.
Qed.

(** X30. When the count query fails no comment, close or revert request is
    made: with [skipOnFailure] the run ends [skipped] and does not fail,
    without it the run fails with the message of the query and sets no
    decision. *)
Theorem count_query_failure (h : Host) inputs pr author message :
  snd (preamble h) = Next (inputs, pr, author) →
  snd (teamsGate h inputs author) = Next tt →
  snd (draftGate inputs pr) = Next tt →
  default "open" (JsString.or_undefined (state pr)) = "open" →
  (∀ openQuery mergedQuery, graphql (remote h) openQuery mergedQuery = Err message) →
  acted (run h) = false
  ∧ if Config.skipOnFailure inputs
    then outputs "decision" (run h) = ["skipped"] ∧ existsb is_failure (run h) = false
    else outputs "decision" (run h) = [] ∧ ∃ tr, run h = tr ++ [SetFailed message].
Proof.
  intros Hp Ht Hd Hstate Hfail.
  pose proof (entry_to_counts h inputs pr author Hp Ht Hd) as Hentry.
  pose proof (teamsGate_next h inputs author Ht) as Hq.
  revert Hentry. unfold countsStage, Graphql.fetchAuthorPRCounts, try_catch.
  rewrite Hstate, Hfail. act_unfold.
  destruct (Config.skipOnFailure inputs); simpl; intros Hentry.
  - rewrite run_returned; rewrite Hentry; [|done]. cbn [fst].
    unfold acted. rewrite outputs_app, !existsb_app, (outputs_quiet _ _ (proj1 Hq)),
      (existsb_quiet _ _ acted_is_effect (proj1 Hq)),
      (existsb_quiet _ _ failure_is_effect (proj1 Hq)). done.
  - rewrite (run_thrown h message); rewrite Hentry; [|done]. cbn [fst].
    unfold acted. rewrite !outputs_app, !existsb_app, (outputs_quiet _ _ (proj1 Hq)),
      (existsb_quiet _ _ acted_is_effect (proj1 Hq)). simpl. eauto.
Qed.

(** A bot, a listed user, no token, a closed pull request, a failing count query. *)
Lemma bot_author_is_skipped_witness :
  run Scenario.bot_host
  = [Log Info (BotAuthor "dependabot[bot]" (Some "Bot")); SetOutput "decision" "skipped"].
Proof.
  apply (bot_author_is_skipped Scenario.bot_host (Scenario.parsed (source Scenario.bot_host)) Scenario.bot_pull
           "dependabot[bot]");
    first [left; reflexivity | vm_compute; reflexivity].
Defined.

Lemma listed_user_is_skipped_witness :
  run Scenario.listed_user_host
  = [Log Info (AuthorInExcludeUsers "alice"); SetOutput "decision" "skipped"].
Proof.
  apply (listed_user_is_skipped Scenario.listed_user_host (Scenario.parsed (source Scenario.listed_user_host))
           (Scenario.pull false) "alice" "ghs_scenario");
    first [left; reflexivity | vm_compute; reflexivity].
Defined.

Lemma missing_token_is_skipped_witness :
  run Scenario.tokenless_host = [Log Warning NoToken; SetOutput "decision" "skipped"].
Proof.
  apply (missing_token_is_skipped Scenario.tokenless_host (Scenario.parsed (source Scenario.tokenless_host))
           (Scenario.pull false) "alice");
    first [left; reflexivity | vm_compute; reflexivity].
Defined.

Lemma pull_request_not_open_is_skipped_witness :
  outputs "decision" (run Scenario.closed_pull_host) = ["skipped"]
  ∧ existsb is_counts_query (run Scenario.closed_pull_host) = false
  ∧ acted (run Scenario.closed_pull_host) = false.
Proof.
  apply (pull_request_not_open_is_skipped Scenario.closed_pull_host
           (Scenario.parsed (source Scenario.closed_pull_host)) Scenario.closed_pull "alice");
    try (vm_compute; reflexivity).
  vm_compute. discriminate.
Defined.

Lemma count_query_failure_witness :
  acted (run Scenario.unreachable_host) = false
  ∧ outputs "decision" (run Scenario.unreachable_host) = ["skipped"]
  ∧ existsb is_failure (run Scenario.unreachable_host) = false.
Proof.
  apply (count_query_failure Scenario.unreachable_host (Scenario.parsed (source Scenario.unreachable_host))
           (Scenario.pull false) "alice" "Bad credentials");
    first [vm_compute; reflexivity | intros; reflexivity].
Defined.
